(** * GitHub-Contributions-README-Generator: contribution pipeline and configuration

    A shallow embedding of [github_api.py] and [config_manager.py].

    - JSON values returned by [response.json()] / [json.load] are the
      inductive type [json]; a Python [dict] is an association list in
      insertion order, looked up by first match.
    - A Python exception is the [Raise] branch of the [result] monad; every
      function of the source that can raise returns a [result].
    - The network ([requests.post]), the clock ([datetime.now()]) and the
      ISO date parser are fields of a [world] record handed to the functions
      that use them.
    - The working sets of the aggregator are [gset (string * string)];
      the comment map of the renderer is a [gmap string string].
    - Strings are byte strings (UTF-8); the byte-wise order of [String.compare]
      coincides with Python's code-point order on [str]. *)

From Stdlib Require Import Ascii.
From stdpp Require Import gmap strings list sorting pretty.

Set Warnings "-register-all,-clear-no-such-hyp".

(** ** Python values and primitives *)

Module Py.

Inductive exn : Type :=
| KeyError | TypeError | AttributeError | ValueError
| ConnectionError | JSONDecodeError
| SchemaViolation.
(* [SchemaViolation] is not a Python exception: it marks a payload whose
   [nameWithOwner] or [url] is not a string, which the API schema excludes
   (String! and URI!) and which the set model below does not cover. *)

Inductive result (A : Type) : Type :=
| Ok (a : A)
| Raise (e : exn).
Arguments Ok {A} a.
Arguments Raise {A} e.

#[export] Instance result_ret : MRet result := λ A a, Ok a.
#[export] Instance result_bind : MBind result := λ A B f m,
  match m with Ok a => f a | Raise e => Raise e end.
#[export] Instance result_fmap : FMap result := λ A B f m,
  match m with Ok a => Ok (f a) | Raise e => Raise e end.

Inductive json : Type :=
| JNull
| JBool (b : bool)
| JNum (n : Z)
| JStr (s : string)
| JList (l : list json)
| JObj (o : list (string * json)).

Definition nl : string := String (Ascii.ascii_of_nat 10) EmptyString.
Definition dquote : string := String (Ascii.ascii_of_nat 34) EmptyString.

(** [bool(v)]: the truth value of a JSON value. *)
Definition truthy (v : json) : bool :=
  match v with
  | JNull => false
  | JBool b => b
  | JNum n => negb (n =? 0)%Z
  | JStr s => negb (String.eqb s EmptyString)
  | JList l => match l with [] => false | _ => true end
  | JObj o => match o with [] => false | _ => true end
  end.

Definition is_none (v : json) : bool :=
  match v with JNull => true | _ => false end.

(** Dictionaries as association lists. *)
Fixpoint alookup (k : string) (o : list (string * json)) : option json :=
  match o with
  | [] => None
  | (k', v) :: o' => if String.eqb k k' then Some v else alookup k o'
  end.

(** [d[k] = v] on a dict: overwrite in place, or append a new key. *)
Fixpoint aset (k : string) (v : json) (o : list (string * json))
  : list (string * json) :=
  match o with
  | [] => [(k, v)]
  | (k', v') :: o' =>
      if String.eqb k k' then (k', v) :: o' else (k', v') :: aset k v o'
  end.

(** [d.get(k, default)]; only a dict has [.get]. *)
Definition py_get (d : json) (k : string) (default : json) : result json :=
  match d with
  | JObj o => Ok (from_option id default (alookup k o))
  | _ => Raise AttributeError
  end.

(** [d[k]] with a string key. *)
Definition py_getitem (d : json) (k : string) : result json :=
  match d with
  | JObj o => match alookup k o with Some v => Ok v | None => Raise KeyError end
  | _ => Raise TypeError
  end.

(** [d[k] = v] with a string key. *)
Definition py_setitem (d : json) (k : string) (v : json) : result json :=
  match d with
  | JObj o => Ok (JObj (aset k v o))
  | _ => Raise TypeError
  end.

(** [d.items()]. *)
Definition py_items (d : json) : result (list (string * json)) :=
  match d with
  | JObj o => Ok o
  | _ => Raise AttributeError
  end.

Definition is_str (s : string) (v : json) : bool :=
  match v with JStr t => String.eqb s t | _ => false end.

Fixpoint str_contains (needle hay : string) : bool :=
  String.prefix needle hay ||
  match hay with
  | EmptyString => false
  | String _ hay' => str_contains needle hay'
  end.

(** [s in d] for a string [s]: key of a dict, element of a list, substring
    of a string; other values are not containers. *)
Definition py_contains (s : string) (d : json) : result bool :=
  match d with
  | JObj o => Ok (bool_decide (is_Some (alookup s o)))
  | JList l => Ok (existsb (is_str s) l)
  | JStr t => Ok (str_contains s t)
  | _ => Raise TypeError
  end.

Fixpoint chars (s : string) : list json :=
  match s with
  | EmptyString => []
  | String c s' => JStr (String c EmptyString) :: chars s'
  end.

(** [for x in v]: the sequence a [for] loop runs over. *)
Definition py_iter (v : json) : result (list json) :=
  match v with
  | JList l => Ok l
  | JObj o => Ok ((λ kv, JStr kv.1) <$> o)
  | JStr s => Ok (chars s)
  | _ => Raise TypeError
  end.

(** A [for] loop whose body may raise, threading the loop state. *)
Fixpoint for_each {A S : Type} (body : A → S → result S) (xs : list A) (st : S)
  : result S :=
  match xs with
  | [] => Ok st
  | x :: xs' => st' ← body x st; for_each body xs' st'
  end.

(** [s.replace(old, new)] for a non-empty [old]: left to right, matches do
    not overlap. [skip] counts the characters of a match still to drop. *)
Fixpoint replace_go (old new : string) (skip : nat) (s : string) : string :=
  match s with
  | EmptyString => EmptyString
  | String c s' =>
      match skip with
      | S k => replace_go old new k s'
      | O =>
          if String.prefix old s
          then new +:+ replace_go old new (String.length old - 1) s'
          else String c (replace_go old new O s')
      end
  end.
Definition str_replace (old new s : string) : string := replace_go old new 0 s.

(** [sep.join(lines)]. *)
Fixpoint str_join (sep : string) (lines : list string) : string :=
  match lines with
  | [] => EmptyString
  | [l] => l
  | l :: ls => l +:+ sep +:+ str_join sep ls
  end.

(** [range(a, b)] on integers. *)
Definition py_range (a b : Z) : list Z := seqZ a (b - a).

End Py.
Export Py.

(** ** github_api.py *)

Module github_api.

(** What one [requests.post(API_URL, ...)] followed by [response.json()]
    can do: fail in transport, deliver a body that is not JSON, or deliver
    a JSON value. *)
Inductive http_outcome : Type :=
| TransportFailure
| Body (parsed : option json).

Record world : Type := {
  (* the endpoint, as a function of the query text and the bearer token *)
  post : string → string → http_outcome;
  (* [datetime.fromisoformat(s).year]; [None] when it raises ValueError *)
  iso_year : string → option Z;
  (* [datetime.now().year] *)
  now_year : Z
}.

Definition post_json (w : world) (query token : string) : result json :=
  match post w query token with
  | TransportFailure => Raise ConnectionError
  | Body None => Raise JSONDecodeError
  | Body (Some data) => Ok data
  end.

Record Translator : Type := { get_text : string → string }.

Definition repo_tuple : Type := string * string.

Definition auth_query : string := "
    {
      viewer {
        login
      }
    }
    ".

Definition test_github_auth (w : world) (username token : string) : result bool :=
  data ← post_json w auth_query token;
  has_errors ← py_contains "errors" data;
  if (has_errors : bool) then Ok false
  else
    d ← py_get data "data" (JObj []);
    viewer ← py_get d "viewer" (JObj []);
    login ← py_get viewer "login" JNull;
    Ok (negb (is_none login)).

Definition user_info_query (username : string) : string :=
  "
    {
        user(login: " +:+ dquote +:+ username +:+ dquote +:+ ") {
            createdAt
        }
    }
    ".

(** [created_at.replace(...)]: a method of [str] only. *)
Definition as_str (v : json) : result string :=
  match v with JStr s => Ok s | _ => Raise AttributeError end.

Definition _get_user_creation_year (w : world) (username token : string)
  : result (option Z) :=
  user_data ← post_json w (user_info_query username) token;
  has_errors ← py_contains "errors" user_data;
  if (has_errors : bool) then Ok None
  else
    data ← py_getitem user_data "data";
    user ← py_getitem data "user";
    created_at ← py_getitem user "createdAt";
    s ← as_str created_at;
    match iso_year w (str_replace "Z" "+00:00" s) with
    | Some y => Ok (Some y)
    | None => Raise ValueError
    end.

Definition _build_current_year_query : string := "
        contributionsCollection {
            commitContributionsByRepository(maxRepositories: 100) {
                repository { nameWithOwner url isPrivate isFork }
            }
            pullRequestContributionsByRepository(maxRepositories: 100) {
                repository { nameWithOwner url isPrivate isFork }
            }
            issueContributionsByRepository(maxRepositories: 100) {
                repository { nameWithOwner url isPrivate isFork }
            }
            pullRequestReviewContributionsByRepository(maxRepositories: 100) {
                repository { nameWithOwner url isPrivate isFork }
            }
            repositoryContributions(first: 100) {
                edges { node { repository { nameWithOwner url isPrivate isFork } } }
            }
        }
    ".

(** The alias of a historical block: [contributionsCollection{year}]. *)
Definition year_alias (year : Z) : string :=
  "contributionsCollection" +:+ pretty year.

Definition year_block_body : string := ") {
            commitContributionsByRepository(maxRepositories: 100) {
                repository { nameWithOwner url isPrivate isFork }
            }
            pullRequestContributionsByRepository(maxRepositories: 100) {
                repository { nameWithOwner url isPrivate isFork }
            }
            repositoryContributions(first: 100) {
                edges { node { repository { nameWithOwner url isPrivate isFork } } }
            }
        }
    ".

Definition _build_year_query (year : Z) : string :=
  "
        " +:+ year_alias year +:+ ": contributionsCollection(from: " +:+
  dquote +:+ pretty year +:+ "-01-01T00:00:00Z" +:+ dquote +:+ ", to: " +:+
  dquote +:+ pretty year +:+ "-12-31T23:59:59Z" +:+ dquote +:+ year_block_body.

(** The list [contributions_queries] when the loop of
    [_build_contributions_query] has finished. *)
Definition contributions_queries (created_year current_year : Z) : list string :=
  [_build_current_year_query]
  ++ (_build_year_query <$> py_range created_year current_year).

Definition query_head : string :=
  "
    {
        user(login: " +:+ dquote +:+ "{username}" +:+ dquote +:+ ") {
            ".

Definition query_tail : string := "
        }
    }
    ".

Definition _build_contributions_query (created_year current_year : Z) : string :=
  query_head
  +:+ str_join nl (contributions_queries created_year current_year)
  +:+ query_tail.

Definition _fetch_contributions_data (w : world) (username token query : string)
  : result (option json) :=
  let formatted_query := str_replace "{username}" username query in
  data ← post_json w formatted_query token;
  has_errors ← py_contains "errors" data;
  if (has_errors : bool) then Ok None
  else
    d ← py_getitem data "data";
    user ← py_getitem d "user";
    Ok (if is_none user then None else Some user).

(** A component of the repository tuple; the schema makes it a string. *)
Definition schema_string (v : json) : result string :=
  match v with JStr s => Ok s | _ => Raise SchemaViolation end.

(** Returns the updated [repo_set] and [repos_all] (both are mutated in
    place by the source). *)
Definition _add_repo_if_valid (repo_set : gset repo_tuple) (repo : json)
    (repos_all : gset repo_tuple)
  : result (gset repo_tuple * gset repo_tuple) :=
  is_private ← py_getitem repo "isPrivate";
  if truthy is_private then Ok (repo_set, repos_all)
  else
    is_fork ← py_getitem repo "isFork";
    if truthy is_fork then Ok (repo_set, repos_all)
    else
      name ← py_getitem repo "nameWithOwner" ≫= schema_string;
      url ← py_getitem repo "url" ≫= schema_string;
      Ok ({[ (name, url) ]} ∪ repo_set, {[ (name, url) ]} ∪ repos_all).

(** Loop body [_add_repo_if_valid(repo_set, item['repository'], repos_all)]. *)
Definition add_item (item : json) (st : gset repo_tuple * gset repo_tuple)
  : result (gset repo_tuple * gset repo_tuple) :=
  repo ← py_getitem item "repository";
  _add_repo_if_valid st.1 repo st.2.

(** Loop body [_add_repo_if_valid(set(), item['repository'], repos_all)]. *)
Definition add_item_all (item : json) (repos_all : gset repo_tuple)
  : result (gset repo_tuple) :=
  repo ← py_getitem item "repository";
  snd <$> _add_repo_if_valid ∅ repo repos_all.

(** Loop body [_add_repo_if_valid(set(), edge['node']['repository'], repos_all)]. *)
Definition add_edge_all (edge : json) (repos_all : gset repo_tuple)
  : result (gset repo_tuple) :=
  node ← py_getitem edge "node";
  repo ← py_getitem node "repository";
  snd <$> _add_repo_if_valid ∅ repo repos_all.

(** Returns the three sets [(repos_commit, repos_pr, repos_all)] as the
    source leaves them. *)
Definition _process_contribution_collection (cc : json)
    (repos_commit repos_pr repos_all : gset repo_tuple) (is_current_year : bool)
  : result (gset repo_tuple * gset repo_tuple * gset repo_tuple) :=
  (* Commits *)
  items ← py_get cc "commitContributionsByRepository" (JList []) ≫= py_iter;
  '(repos_commit, repos_all) ← for_each add_item items (repos_commit, repos_all);
  (* Pull requests *)
  items ← py_get cc "pullRequestContributionsByRepository" (JList []) ≫= py_iter;
  '(repos_pr, repos_all) ← for_each add_item items (repos_pr, repos_all);
  (* Issues and reviews (current year only) *)
  repos_all ←
    (if is_current_year then
       items ← py_get cc "issueContributionsByRepository" (JList []) ≫= py_iter;
       repos_all ← for_each add_item_all items repos_all;
       items ← py_get cc "pullRequestReviewContributionsByRepository" (JList [])
                 ≫= py_iter;
       for_each add_item_all items repos_all
     else Ok repos_all);
  (* Repository contributions *)
  rc ← py_get cc "repositoryContributions" (JObj []);
  edges ← py_get rc "edges" (JList []) ≫= py_iter;
  repos_all ← for_each add_edge_all edges repos_all;
  Ok (repos_commit, repos_pr, repos_all).

Definition collection_prefix : string := "contributionsCollection".

(** Body of the loop over [user_data.items()]. *)
Definition process_entry (entry : string * json)
    (st : gset repo_tuple * gset repo_tuple * gset repo_tuple)
  : result (gset repo_tuple * gset repo_tuple * gset repo_tuple) :=
  let '(key, cc) := entry in
  if negb (String.prefix collection_prefix key) || negb (truthy cc) then Ok st
  else
    let is_current_year := String.eqb key collection_prefix in
    _process_contribution_collection cc st.1.1 st.1.2 st.2 is_current_year.

(** [(repos_commit, repos_pr, repos_all)] after the loop of
    [_extract_repositories_data]. *)
Definition working_sets (user_data : json)
  : result (gset repo_tuple * gset repo_tuple * gset repo_tuple) :=
  entries ← py_items user_data;
  for_each process_entry entries (∅, ∅, ∅).

Record repos_data : Type := {
  repos_commit_only : gset repo_tuple;
  repos_pr_only : gset repo_tuple;
  repos_other : gset repo_tuple
}.

Definition _extract_repositories_data (user_data : json) : result repos_data :=
  '(repos_commit, repos_pr, repos_all) ← working_sets user_data;
  Ok {| repos_commit_only := filter (λ r, r ∉ repos_pr) repos_commit;
        repos_pr_only := repos_pr;
        repos_other := repos_all ∖ repos_commit ∖ repos_pr |}.

(** Python's [<] on pairs of strings. *)
Definition tuple_lt (r1 r2 : repo_tuple) : bool :=
  String.ltb r1.1 r2.1 || (String.eqb r1.1 r2.1 && String.ltb r1.2 r2.2).

(** The order [sorted] leaves two neighbours in: the right one is not
    smaller than the left one. *)
Definition tuple_le (r1 r2 : repo_tuple) : Prop := tuple_lt r2 r1 = false.

#[export] Instance tuple_le_dec : RelDecision tuple_le.
Proof. intros r1 r2. unfold tuple_le. apply _. Defined.

(** [sorted(repos_set)]. *)
Definition sorted (repos_set : gset repo_tuple) : list repo_tuple :=
  merge_sort tuple_le (elements repos_set).

(** One bullet line of a section. *)
Definition bullet_line (user_comments : gmap string string) (r : repo_tuple)
  : string :=
  let line := "- [" +:+ r.1 +:+ "](" +:+ r.2 +:+ ")" in
  match user_comments !! r.1 with
  | Some comment => line +:+ " — " +:+ comment
  | None => line
  end.

Definition _build_readme_section (section_key : string)
    (repos_set : gset repo_tuple) (user_comments : gmap string string)
    (translator : Translator) : list string :=
  if decide (repos_set = ∅) then []
  else
    ("## " +:+ get_text translator section_key +:+ nl)
    :: (bullet_line user_comments <$> sorted repos_set).

(** [lines.append(...); lines.extend(section)] under [if section:]. *)
Definition with_separator (section : list string) : list string :=
  match section with
  | [] => []
  | _ => EmptyString :: section
  end.

Definition title_line (username : string) (translator : Translator) : string :=
  "# " +:+ get_text translator "categories.profile_git" +:+ " : "
  +:+ username +:+ nl.

Definition readme_lines (username : string) (rd : repos_data)
    (user_comments : gmap string string) (translator : Translator)
  : list string :=
  let lines := [title_line username translator] in
  (* Commits only section *)
  let commit_lines :=
    _build_readme_section "categories.commit_only" (repos_commit_only rd)
      user_comments translator in
  let lines := lines ++ commit_lines in
  (* Pull requests section *)
  let pr_lines :=
    _build_readme_section "categories.pull_requests" (repos_pr_only rd)
      user_comments translator in
  let lines := lines ++ with_separator pr_lines in
  (* Other contributions section *)
  let other_lines :=
    _build_readme_section "categories.other_contributions" (repos_other rd)
      user_comments translator in
  lines ++ with_separator other_lines.

Definition _build_readme_content (username : string) (rd : repos_data)
    (user_comments : gmap string string) (translator : Translator) : string :=
  str_join nl (readme_lines username rd user_comments translator).

(** The second component is [None] for the empty dict [{}] of the two
    early returns. *)
Definition generate_readme_content (w : world) (username token : string)
    (user_comments : gmap string string) (translator : Translator)
  : result (string * option repos_data) :=
  created ← _get_user_creation_year w username token;
  match created with
  | None => Ok (EmptyString, None)
  | Some created_year =>
      let current_year := now_year w in
      let query := _build_contributions_query created_year current_year in
      fetched ← _fetch_contributions_data w username token query;
      match fetched with
      | None => Ok (EmptyString, None)
      | Some user_data =>
          rd ← _extract_repositories_data user_data;
          Ok (_build_readme_content username rd user_comments translator,
              Some rd)
      end
  end.

End github_api.
Export github_api.

(** ** config_manager.py *)

Module config_manager.

(** What the guarded read of [CONFIG_FILE] finds. *)
Inductive config_file : Type :=
| Absent                      (* [os.path.exists] is false *)
| Unreadable                  (* [open] or [json.load] raised a caught error *)
| Contents (data : json).

Definition load_existing (file : config_file) : json :=
  match file with
  | Contents data => data
  | Absent | Unreadable => JObj []
  end.

(** [l.remove(x)]: drop the first item equal to the string [x]. *)
Fixpoint remove_first (x : string) (l : list json) : list json :=
  match l with
  | [] => []
  | y :: l' => if is_str x y then l' else y :: remove_first x l'
  end.

Definition list_remove (x : string) (v : json) : result json :=
  match v with
  | JList l => Ok (JList (remove_first x l))
  | _ => Raise AttributeError
  end.

(** [l.insert(0, x)]. *)
Definition list_insert_front (x : json) (v : json) : result json :=
  match v with
  | JList l => Ok (JList (x :: l))
  | _ => Raise AttributeError
  end.

(** [l[:n]]. *)
Definition slice_to (n : nat) (v : json) : result json :=
  match v with
  | JList l => Ok (JList (take n l))
  | JStr s => Ok (JStr (String.substring 0 n s))
  | _ => Raise TypeError
  end.

(** Lines 21-28: the new value of [username_history]. *)
Definition update_history (existing_data : json) (username : string)
  : result json :=
  username_history ← py_get existing_data "username_history" (JList []);
  present ← py_contains username username_history;
  username_history ←
    (if (present : bool) then list_remove username username_history
     else Ok username_history);
  username_history ← list_insert_front (JStr username) username_history;
  slice_to 10 username_history.

(** Lines 31-34: the new value of [user_configs]. The dict stored under
    [username] is fetched, stored back, and then updated in place. *)
Definition update_user_configs (existing_data : json) (username : string)
    (user_comments : option json) : result json :=
  user_configs ← py_get existing_data "user_configs" (JObj []);
  match user_comments with
  | None => Ok user_configs
  | Some comments =>
      entry ← py_get user_configs username (JObj []);
      user_configs ← py_setitem user_configs username entry;
      entry ← py_getitem user_configs username;
      entry ← py_setitem entry "comments" comments;
      py_setitem user_configs username entry
  end.

(** [save_config] returns the record handed to [json.dump]. [b64] is
    [base64.b64encode(token.encode()).decode()]. *)
Definition save_config (b64 : string → string) (file : config_file)
    (username token theme : string) (user_comments : option json)
    (language : option string) : result json :=
  let existing_data := load_existing file in
  username_history ← update_history existing_data username;
  user_configs ← update_user_configs existing_data username user_comments;
  language ←
    match language with
    | Some l => Ok (JStr l)
    | None => py_get existing_data "language" (JStr "en")
    end;
  Ok (JObj [ ("username", JStr username);
             ("username_history", username_history);
             ("token", JStr (b64 token));
             ("theme", JStr theme);
             ("language", language);
             ("user_configs", user_configs) ]).

End config_manager.
Export config_manager.

(** ** Reading the payload: which repository objects the aggregator visits *)

Inductive contribution_kind : Type :=
| Commit | PullRequest | Issue | Review | RepositoryContribution.

(** The repository object is public and not a fork, and carries the tuple [r]. *)
Definition admitted (repo : json) (r : repo_tuple) : Prop :=
  ∃ p f,
    py_getitem repo "isPrivate" = Ok p ∧ truthy p = false ∧
    py_getitem repo "isFork" = Ok f ∧ truthy f = false ∧
    py_getitem repo "nameWithOwner" = Ok (JStr r.1) ∧
    py_getitem repo "url" = Ok (JStr r.2).

(** The repository object carries the tuple [r], whatever its flags. *)
Definition names (repo : json) (r : repo_tuple) : Prop :=
  py_getitem repo "nameWithOwner" = Ok (JStr r.1) ∧
  py_getitem repo "url" = Ok (JStr r.2).

(** One of the two flags of the repository object is set. *)
Definition flagged (repo : json) : Prop :=
  (∃ p, py_getitem repo "isPrivate" = Ok p ∧ truthy p = true) ∨
  (∃ f, py_getitem repo "isFork" = Ok f ∧ truthy f = true).

(** [repo] is [item['repository']] for an item of [cc.get(field, [])]. *)
Definition field_occurs (cc : json) (field : string) (repo : json) : Prop :=
  ∃ v items item,
    py_get cc field (JList []) = Ok v ∧ py_iter v = Ok items ∧
    item ∈ items ∧ py_getitem item "repository" = Ok repo.

(** [repo] is [edge['node']['repository']] for an edge of
    [cc.get('repositoryContributions', {}).get('edges', [])]. *)
Definition edges_occur (cc : json) (repo : json) : Prop :=
  ∃ rc v edges edge node,
    py_get cc "repositoryContributions" (JObj []) = Ok rc ∧
    py_get rc "edges" (JList []) = Ok v ∧ py_iter v = Ok edges ∧
    edge ∈ edges ∧ py_getitem edge "node" = Ok node ∧
    py_getitem node "repository" = Ok repo.

Definition block_occurs (is_current_year : bool) (cc : json)
    (k : contribution_kind) (repo : json) : Prop :=
  match k with
  | Commit => field_occurs cc "commitContributionsByRepository" repo
  | PullRequest => field_occurs cc "pullRequestContributionsByRepository" repo
  | Issue =>
      is_current_year = true ∧
      field_occurs cc "issueContributionsByRepository" repo
  | Review =>
      is_current_year = true ∧
      field_occurs cc "pullRequestReviewContributionsByRepository" repo
  | RepositoryContribution => edges_occur cc repo
  end.

(** [repo] occurs under contribution type [k] in a block of the payload
    that the aggregator processes. *)
Definition payload_occurs (user_data : json) (k : contribution_kind)
    (repo : json) : Prop :=
  ∃ entries key cc,
    py_items user_data = Ok entries ∧ (key, cc) ∈ entries ∧
    String.prefix collection_prefix key = true ∧ truthy cc = true ∧
    block_occurs (String.eqb key collection_prefix) cc k repo.

(** The payload holds a qualifying contribution of type [k] to [r]. *)
Definition contribution (user_data : json) (k : contribution_kind)
    (r : repo_tuple) : Prop :=
  ∃ repo, payload_occurs user_data k repo ∧ admitted repo r.

(** ** The result monad *)

Section result_monad.
Context {A B : Type}.

Lemma bind_Ok (m : result A) (f : A → result B) (b : B) :
  m ≫= f = Ok b ↔ ∃ a, m = Ok a ∧ f a = Ok b.
Proof.
  destruct m as [a|e]; simpl; split.
  - intros H. exists a. done.
  - intros (a' & [= <-] & H). done.
  - intros H. discriminate H.
  - intros (a' & H & _). discriminate H.
Qed.

Lemma fmap_Ok (m : result A) (f : A → B) (b : B) :
  f <$> m = Ok b ↔ ∃ a, m = Ok a ∧ f a = b.
Proof.
  destruct m as [a|e]; simpl; split.
  - intros [= <-]. eauto.
  - intros (a' & [= <-] & <-). done.
  - intros H. discriminate H.
  - intros (a' & H & _). discriminate H.
Qed.
End result_monad.

Lemma for_each_app {A S} (body : A → S → result S) xs ys st :
  for_each body (xs ++ ys) st = for_each body xs st ≫= for_each body ys.
Proof.
  revert st. induction xs as [|x xs IH]; intros st; simpl; [done|].
  destruct (body x st) as [st'|e]; simpl; [apply IH|done].
Qed.

(** A loop invariant holds at exit when every iteration that returns keeps it. *)
Lemma for_each_invariant {A S} (I : S → Prop) (body : A → S → result S) xs st st' :
  (∀ x s s', x ∈ xs → I s → body x s = Ok s' → I s') →
  I st → for_each body xs st = Ok st' → I st'.
Proof.
  revert st. induction xs as [|x xs IH]; intros st Hbody HI Hrun; simpl in Hrun.
  - by injection Hrun as <-.
  - apply bind_Ok in Hrun as (s1 & Hx & Hrun).
    eapply IH; [|eapply Hbody|]; eauto using list_elem_of_here.
    intros y s s' Hy. apply Hbody. by apply list_elem_of_further.
Qed.

(** ** The aggregator *)

Section aggregator.
Implicit Types (s a c p R : gset repo_tuple) (r : repo_tuple).
Implicit Types (repo item cc : json).

Lemma admitted_functional repo r1 r2 :
  admitted repo r1 → admitted repo r2 → r1 = r2.
Proof.
  intros (? & ? & _ & _ & _ & _ & Hn1 & Hu1) (? & ? & _ & _ & _ & _ & Hn2 & Hu2).
  destruct r1, r2; simpl in *. congruence.
Qed.

Lemma admitted_names repo r : admitted repo r → names repo r.
Proof. intros (? & ? & _ & _ & _ & _ & ? & ?). by split. Qed.

Lemma admitted_not_flagged repo r : admitted repo r → ¬ flagged repo.
Proof.
  intros (p & f & Hp & Hpt & Hf & Hft & _) [(p' & Hp' & Ht)|(f' & Hf' & Ht)];
    congruence.
Qed.

(** What one call of [_add_repo_if_valid] adds, to both sets alike. *)
Lemma add_repo_if_valid_Ok s repo a s' a' :
  _add_repo_if_valid s repo a = Ok (s', a') →
  ∃ R, s' = R ∪ s ∧ a' = R ∪ a ∧ ∀ r, r ∈ R ↔ admitted repo r.
Proof.
  unfold _add_repo_if_valid. intros H.
  apply bind_Ok in H as (p & Hp & H).
  destruct (truthy p) eqn:Htp.
  { injection H as <- <-. exists ∅. split_and!; [set_solver..|].
    intros r. split; [set_solver|].
    intros (p' & ? & Hp' & ? & _). congruence. }
  apply bind_Ok in H as (f & Hf & H).
  destruct (truthy f) eqn:Htf.
  { injection H as <- <-. exists ∅. split_and!; [set_solver..|].
    intros r. split; [set_solver|].
    intros (? & f' & _ & _ & Hf' & ? & _). congruence. }
  apply bind_Ok in H as (name & Hn & H).
  apply bind_Ok in H as (url & Hu & H).
  apply bind_Ok in Hn as (vn & Hn & Hsn).
  apply bind_Ok in Hu as (vu & Hu & Hsu).
  destruct vn; try discriminate Hsn. injection Hsn as ->.
  destruct vu; try discriminate Hsu. injection Hsu as ->.
  injection H as <- <-.
  exists {[ (name, url) ]}. split_and!; [done..|].
  intros r. rewrite elem_of_singleton. split.
  - intros ->. by exists p, f.
  - intros Hr. eapply admitted_functional; [done|]. by exists p, f.
Qed.

(** The repository objects a loop visits, given how the body reaches them. *)
Definition reached (path : json → result json) (items : list json)
    (repo : json) : Prop :=
  ∃ item, item ∈ items ∧ path item = Ok repo.

Definition item_path (item : json) : result json :=
  py_getitem item "repository".
Definition edge_path (edge : json) : result json :=
  node ← py_getitem edge "node"; py_getitem node "repository".

Lemma reached_cons path x xs repo :
  reached path (x :: xs) repo ↔ path x = Ok repo ∨ reached path xs repo.
Proof.
  unfold reached. split.
  - intros (item & [->|Hin]%elem_of_cons & Hp); eauto.
  - intros [Hp|(item & Hin & Hp)].
    + exists x. split; [apply list_elem_of_here|done].
    + exists item. split; [by apply list_elem_of_further|done].
Qed.

Lemma for_each_add_item_Ok items s a s' a' :
  for_each add_item items (s, a) = Ok (s', a') →
  ∃ R, s' = R ∪ s ∧ a' = R ∪ a ∧
       ∀ r, r ∈ R ↔ ∃ repo, reached item_path items repo ∧ admitted repo r.
Proof.
  revert s a. induction items as [|x xs IH]; intros s a H; simpl in H.
  - injection H as <- <-. exists ∅. split_and!; [set_solver..|].
    intros r. split; [set_solver|]. intros (? & (? & []%elem_of_nil & _) & _).
  - apply bind_Ok in H as ([s1 a1] & Hx & H).
    unfold add_item in Hx. apply bind_Ok in Hx as (repo & Hrepo & Hx).
    apply add_repo_if_valid_Ok in Hx as (R1 & -> & -> & HR1).
    apply IH in H as (R2 & -> & -> & HR2).
    exists (R2 ∪ R1). split_and!; [set_solver..|].
    intros r. rewrite elem_of_union, HR1, HR2. split.
    + intros [(repo' & Hreach & Hadm)|Hadm].
      * exists repo'. split; [|done]. apply reached_cons. by right.
      * exists repo. split; [|done]. apply reached_cons. by left.
    + intros (repo' & [Hp|Hreach]%reached_cons & Hadm).
      * right. unfold item_path in Hp. congruence.
      * left. eauto.
Qed.

(** The loops that feed a throwaway [set()] share one shape. *)
Lemma for_each_all_Ok (path : json → result json)
    (body : json → gset repo_tuple → result (gset repo_tuple)) items a a' :
  (∀ item a0, body item a0
              = repo ← path item; snd <$> _add_repo_if_valid ∅ repo a0) →
  for_each body items a = Ok a' →
  ∃ R, a' = R ∪ a ∧
       ∀ r, r ∈ R ↔ ∃ repo, reached path items repo ∧ admitted repo r.
Proof.
  intros Hbody. revert a. induction items as [|x xs IH]; intros a H; simpl in H.
  - injection H as <-. exists ∅. split; [set_solver|].
    intros r. split; [set_solver|]. intros (? & (? & []%elem_of_nil & _) & _).
  - apply bind_Ok in H as (a1 & Hx & H).
    rewrite Hbody in Hx. apply bind_Ok in Hx as (repo & Hrepo & Hx).
    apply fmap_Ok in Hx as ([s1 a1'] & Hx & Ha1). simpl in Ha1. subst a1'.
    apply add_repo_if_valid_Ok in Hx as (R1 & _ & -> & HR1).
    apply IH in H as (R2 & -> & HR2).
    exists (R2 ∪ R1). split; [set_solver|].
    intros r. rewrite elem_of_union, HR1, HR2. split.
    + intros [(repo' & Hreach & Hadm)|Hadm].
      * exists repo'. split; [|done]. apply reached_cons. by right.
      * exists repo. split; [|done]. apply reached_cons. by left.
    + intros (repo' & [Hp|Hreach]%reached_cons & Hadm).
      * right. congruence.
      * left. eauto.
Qed.

Lemma for_each_add_item_all_Ok items a a' :
  for_each add_item_all items a = Ok a' →
  ∃ R, a' = R ∪ a ∧
       ∀ r, r ∈ R ↔ ∃ repo, reached item_path items repo ∧ admitted repo r.
Proof. apply for_each_all_Ok. done. Qed.

Lemma for_each_add_edge_all_Ok edges a a' :
  for_each add_edge_all edges a = Ok a' →
  ∃ R, a' = R ∪ a ∧
       ∀ r, r ∈ R ↔ ∃ repo, reached edge_path edges repo ∧ admitted repo r.
Proof.
  apply for_each_all_Ok. intros item a0. unfold add_edge_all, edge_path.
  destruct (py_getitem item "node") as [node|e]; simpl; [|done].
  by destruct (py_getitem node "repository").
Qed.

Definition block_admits (is_current_year : bool) cc
    (k : contribution_kind) r : Prop :=
  ∃ repo, block_occurs is_current_year cc k repo ∧ admitted repo r.

Lemma field_occurs_reached cc field v items repo :
  py_get cc field (JList []) = Ok v → py_iter v = Ok items →
  field_occurs cc field repo ↔ reached item_path items repo.
Proof.
  intros Hv Hitems. unfold field_occurs, reached, item_path. split.
  - intros (v' & items' & item & Hv' & Hitems' & Hin & Hrepo).
    assert (v' = v) as -> by congruence.
    assert (items' = items) as -> by congruence. eauto.
  - intros (item & Hin & Hrepo). exists v, items, item. done.
Qed.

Lemma edges_occur_reached cc rc v edges repo :
  py_get cc "repositoryContributions" (JObj []) = Ok rc →
  py_get rc "edges" (JList []) = Ok v → py_iter v = Ok edges →
  edges_occur cc repo ↔ reached edge_path edges repo.
Proof.
  intros Hrc Hv Hedges. unfold edges_occur, reached, edge_path. split.
  - intros (rc' & v' & edges' & edge & node & Hrc' & Hv' & Hedges' & Hin & Hn & Hr).
    assert (rc' = rc) as -> by congruence.
    assert (v' = v) as -> by congruence.
    assert (edges' = edges) as -> by congruence.
    exists edge. split; [done|]. by rewrite Hn.
  - intros (edge & Hin & Hp). apply bind_Ok in Hp as (node & Hn & Hr).
    exists rc, v, edges, edge, node. done.
Qed.

(** The items of one field, read and iterated as the loop header does. *)
Lemma field_items_Ok cc field items :
  py_get cc field (JList []) ≫= py_iter = Ok items →
  ∀ repo, field_occurs cc field repo ↔ reached item_path items repo.
Proof.
  intros (v & Hv & Hitems)%bind_Ok repo. by eapply field_occurs_reached.
Qed.

Lemma process_contribution_collection_Ok cc c p a cur c' p' a' :
  _process_contribution_collection cc c p a cur = Ok (c', p', a') →
  (∀ r, r ∈ c' ↔ r ∈ c ∨ block_admits cur cc Commit r) ∧
  (∀ r, r ∈ p' ↔ r ∈ p ∨ block_admits cur cc PullRequest r) ∧
  (∀ r, r ∈ a' ↔ r ∈ a ∨ ∃ k, block_admits cur cc k r).
Proof.
  unfold _process_contribution_collection. intros H.
  apply bind_Ok in H as (items1 & Hitems1 & H).
  apply bind_Ok in H as ([c1 a1] & Hloop1 & H).
  apply bind_Ok in H as (items2 & Hitems2 & H).
  apply bind_Ok in H as ([p2 a2] & Hloop2 & H).
  apply bind_Ok in H as (a3 & Hcur & H).
  apply bind_Ok in H as (rc & Hrc & H).
  apply bind_Ok in H as (edges & Hedges & H).
  apply bind_Ok in H as (a4 & Hloop4 & H).
  injection H as <- <- <-.
  apply for_each_add_item_Ok in Hloop1 as (R1 & -> & -> & HR1).
  apply for_each_add_item_Ok in Hloop2 as (R2 & -> & -> & HR2).
  apply bind_Ok in Hedges as (v & Hv & Hedges).
  apply for_each_add_edge_all_Ok in Hloop4 as (R4 & -> & HR4).
  pose proof (field_items_Ok _ _ _ Hitems1) as Hf1.
  pose proof (field_items_Ok _ _ _ Hitems2) as Hf2.
  assert (HC : ∀ r, r ∈ R1 ↔ block_admits cur cc Commit r).
  { intros r. rewrite HR1. unfold block_admits; simpl.
    split; intros (repo & ? & ?); exists repo; split; try done; by apply Hf1. }
  assert (HP : ∀ r, r ∈ R2 ↔ block_admits cur cc PullRequest r).
  { intros r. rewrite HR2. unfold block_admits; simpl.
    split; intros (repo & ? & ?); exists repo; split; try done; by apply Hf2. }
  assert (HE : ∀ r, r ∈ R4 ↔ block_admits cur cc RepositoryContribution r).
  { intros r. rewrite HR4. unfold block_admits; simpl.
    split; intros (repo & ? & ?); exists repo; split; try done;
      by eapply edges_occur_reached. }
  split_and!.
  - intros r. rewrite elem_of_union, HC. tauto.
  - intros r. rewrite elem_of_union, HP. tauto.
  - destruct cur.
    + apply bind_Ok in Hcur as (items3 & Hitems3 & Hcur).
      apply bind_Ok in Hcur as (a3' & Hloop3 & Hcur).
      apply bind_Ok in Hcur as (items3b & Hitems3b & Hloop3b).
      apply for_each_add_item_all_Ok in Hloop3 as (R3 & -> & HR3).
      apply for_each_add_item_all_Ok in Hloop3b as (R3b & -> & HR3b).
      pose proof (field_items_Ok _ _ _ Hitems3) as Hf3.
      pose proof (field_items_Ok _ _ _ Hitems3b) as Hf3b.
      assert (HI : ∀ r, r ∈ R3 ↔ block_admits true cc Issue r).
      { intros r. rewrite HR3. unfold block_admits; simpl.
        split; [intros (repo & ? & ?)|intros (repo & [_ ?] & ?)];
          exists repo; split_and?; try done; by apply Hf3. }
      assert (HV : ∀ r, r ∈ R3b ↔ block_admits true cc Review r).
      { intros r. rewrite HR3b. unfold block_admits; simpl.
        split; [intros (repo & ? & ?)|intros (repo & [_ ?] & ?)];
          exists repo; split_and?; try done; by apply Hf3b. }
      intros r. rewrite !elem_of_union, HC, HP, HE, HI, HV. split.
      * intros [?|[?|[?|[?|[?|?]]]]]; eauto.
      * intros [?|[[] ?]]; eauto 10.
    + injection Hcur as <-.
      intros r. rewrite !elem_of_union, HC, HP, HE. split.
      * intros [?|[?|[?|?]]]; eauto.
      * intros [?|[[] Hk]]; eauto 10;
          destruct Hk as (? & [[=] _] & _).
Qed.

Definition entries_admit (entries : list (string * json))
    (k : contribution_kind) r : Prop :=
  ∃ key cc,
    (key, cc) ∈ entries ∧ String.prefix collection_prefix key = true ∧
    truthy cc = true ∧ block_admits (String.eqb key collection_prefix) cc k r.

Lemma entries_admit_nil k r : ¬ entries_admit [] k r.
Proof. intros (? & ? & []%elem_of_nil & _). Qed.

Lemma entries_admit_cons key cc entries k r :
  entries_admit ((key, cc) :: entries) k r ↔
  (String.prefix collection_prefix key = true ∧ truthy cc = true ∧
   block_admits (String.eqb key collection_prefix) cc k r)
  ∨ entries_admit entries k r.
Proof.
  unfold entries_admit. split.
  - intros (key' & cc' & [[= -> ->]|Hin]%elem_of_cons & ?); [by left|].
    right. by exists key', cc'.
  - intros [?|(key' & cc' & Hin & ?)].
    + exists key, cc. split; [apply list_elem_of_here|done].
    + exists key', cc'. split; [by apply list_elem_of_further|done].
Qed.

Lemma for_each_process_entry_Ok entries c0 p0 a0 c p a :
  for_each process_entry entries (c0, p0, a0) = Ok (c, p, a) →
  (∀ r, r ∈ c ↔ r ∈ c0 ∨ entries_admit entries Commit r) ∧
  (∀ r, r ∈ p ↔ r ∈ p0 ∨ entries_admit entries PullRequest r) ∧
  (∀ r, r ∈ a ↔ r ∈ a0 ∨ ∃ k, entries_admit entries k r).
Proof.
  revert c0 p0 a0.
  induction entries as [|[key cc] entries IH]; intros c0 p0 a0 H; simpl in H.
  - injection H as <- <- <-.
    split_and!; intros r; split; auto; intros [?|Hadm]; auto.
    + by apply entries_admit_nil in Hadm.
    + by apply entries_admit_nil in Hadm.
    + destruct Hadm as [k Hadm]. by apply entries_admit_nil in Hadm.
  - apply bind_Ok in H as ([[c1 p1] a1] & Hentry & H).
    apply IH in H as (Hc & Hp & Ha). simpl in Hentry.
    destruct (String.prefix collection_prefix key) eqn:Hpre; simpl in Hentry;
      [destruct (truthy cc) eqn:Hcc; simpl in Hentry|].
    + apply process_contribution_collection_Ok in Hentry as (Hc1 & Hp1 & Ha1).
      split_and!; intros r.
      * rewrite Hc, Hc1, entries_admit_cons. tauto.
      * rewrite Hp, Hp1, entries_admit_cons. tauto.
      * rewrite Ha, Ha1. setoid_rewrite entries_admit_cons. split.
        -- intros [[?|[k ?]]|[k ?]];
             [by left|right; exists k; left; by split_and!
             |right; exists k; by right].
        -- intros [?|[k [(_ & _ & ?)|?]]];
             [by left; left|left; right; by exists k|right; by exists k].
    + injection Hentry as <- <- <-.
      split_and!; intros r.
      * rewrite Hc, entries_admit_cons. intuition congruence.
      * rewrite Hp, entries_admit_cons. intuition congruence.
      * rewrite Ha. setoid_rewrite entries_admit_cons. split.
        -- intros [?|[k ?]]; eauto.
        -- intros [?|[k [(_ & ? & _)|?]]]; eauto; congruence.
    + injection Hentry as <- <- <-.
      split_and!; intros r.
      * rewrite Hc, entries_admit_cons. intuition congruence.
      * rewrite Hp, entries_admit_cons. intuition congruence.
      * rewrite Ha. setoid_rewrite entries_admit_cons. split.
        -- intros [?|[k ?]]; eauto.
        -- intros [?|[k [(? & _)|?]]]; eauto; congruence.
Qed.

Lemma contribution_entries user_data entries k r :
  py_items user_data = Ok entries →
  contribution user_data k r ↔ entries_admit entries k r.
Proof.
  intros Hitems. unfold contribution, payload_occurs, entries_admit, block_admits.
  split.
  - intros (repo & (es & key & cc & Hes & Hin & Hpre & Hcc & Hocc) & Hadm).
    assert (es = entries) as -> by congruence.
    exists key, cc. split_and!; try done. by exists repo.
  - intros (key & cc & Hin & Hpre & Hcc & repo & Hocc & Hadm).
    exists repo. split; [|done]. by exists entries, key, cc.
Qed.

(** The three working sets hold exactly the qualifying contributions of
    the payload: commits, pull requests, and contributions of any type. *)
Lemma working_sets_Ok user_data c p a :
  working_sets user_data = Ok (c, p, a) →
  (∀ r, r ∈ c ↔ contribution user_data Commit r) ∧
  (∀ r, r ∈ p ↔ contribution user_data PullRequest r) ∧
  (∀ r, r ∈ a ↔ ∃ k, contribution user_data k r).
Proof.
  unfold working_sets. intros (entries & Hitems & H)%bind_Ok.
  apply for_each_process_entry_Ok in H as (Hc & Hp & Ha).
  split_and!; intros r.
  - rewrite Hc, contribution_entries by done. set_solver.
  - rewrite Hp, contribution_entries by done. set_solver.
  - rewrite Ha. setoid_rewrite contribution_entries; [|done]. set_solver.
Qed.
End aggregator.

(** Sample payloads. *)
Definition repository (name url : string) (is_private is_fork : bool) : json :=
  JObj [ ("nameWithOwner", JStr name); ("url", JStr url);
         ("isPrivate", JBool is_private); ("isFork", JBool is_fork) ].
Definition contribution_item (repo : json) : json := JObj [("repository", repo)].
Definition contribution_edge (repo : json) : json :=
  JObj [("node", JObj [("repository", repo)])].

Definition sample_payload : json :=
  JObj [
    ("contributionsCollection", JObj [
       ("commitContributionsByRepository", JList [
          contribution_item (repository "org/b" "https://github.com/org/b" false false);
          contribution_item (repository "org/a" "https://github.com/org/a" false false);
          contribution_item (repository "me/secret" "https://github.com/me/secret" true false) ]);
       ("pullRequestContributionsByRepository", JList [
          contribution_item (repository "org/a" "https://github.com/org/a" false false) ]);
       ("issueContributionsByRepository", JList [
          contribution_item (repository "org/i" "https://github.com/org/i" false false) ]);
       ("pullRequestReviewContributionsByRepository", JList []);
       ("repositoryContributions", JObj [
          ("edges", JList [
             contribution_edge (repository "me/new" "https://github.com/me/new" false false);
             contribution_edge (repository "me/fork" "https://github.com/me/fork" false true) ]) ]) ]);
    ("contributionsCollection2023", JNull) ].

Definition sample_repos_data : repos_data :=
  {| repos_commit_only := {[ ("org/b", "https://github.com/org/b") ]};
     repos_pr_only := {[ ("org/a", "https://github.com/org/a") ]};
     repos_other := {[ ("org/i", "https://github.com/org/i");
                       ("me/new", "https://github.com/me/new") ]} |}.

(** The output record in terms of the working sets. *)
Lemma extract_repositories_data_Ok (user_data : json) (rd : repos_data) :
  _extract_repositories_data user_data = Ok rd →
  ∃ c p a,
    working_sets user_data = Ok (c, p, a) ∧
    (∀ r, r ∈ repos_commit_only rd ↔ r ∈ c ∧ r ∉ p) ∧
    (∀ r, r ∈ repos_pr_only rd ↔ r ∈ p) ∧
    (∀ r, r ∈ repos_other rd ↔ r ∈ a ∧ (r ∉ c) ∧ (r ∉ p)).
Proof.
  unfold _extract_repositories_data.
  intros ([[c p] a] & Hws & [= <-])%bind_Ok. simpl.
  exists c, p, a. split_and!; [done|..]; intros r.
  - rewrite elem_of_filter. tauto.
  - done.
  - rewrite !elem_of_difference. tauto.
Qed.

(** C1: whenever the aggregator returns, its three sets are pairwise
    disjoint, their union is exactly the set of tuples with a qualifying
    (public, non-fork) contribution of any type in the payload, and a tuple
    with both a qualifying commit contribution and a qualifying pull-request
    contribution is in [repos_pr_only] and in neither of the other two. *)
Theorem extract_repositories_partition (user_data : json) (rd : repos_data) :
  _extract_repositories_data user_data = Ok rd →
  repos_commit_only rd ## repos_pr_only rd ∧
  repos_commit_only rd ## repos_other rd ∧
  repos_pr_only rd ## repos_other rd ∧
  (∀ r, r ∈ repos_commit_only rd ∪ repos_pr_only rd ∪ repos_other rd
        ↔ ∃ k, contribution user_data k r) ∧
  (∀ r, contribution user_data Commit r →
        contribution user_data PullRequest r →
        r ∈ repos_pr_only rd ∧
        (r ∉ repos_commit_only rd) ∧ (r ∉ repos_other rd)).
Proof.
  intros (c & p & a & Hws & Hco & Hpo & Hoo)%extract_repositories_data_Ok.
  apply working_sets_Ok in Hws as (Hc & Hp & Ha).
  assert (Hca : ∀ r, r ∈ c → r ∈ a).
  { intros r Hr. apply Ha. exists Commit. by apply Hc. }
  assert (Hpa : ∀ r, r ∈ p → r ∈ a).
  { intros r Hr. apply Ha. exists PullRequest. by apply Hp. }
  split_and!.
  - intros r [_ Hnp]%Hco Hin%Hpo. done.
  - intros r [Hin _]%Hco (_ & Hnc & _)%Hoo. done.
  - intros r Hin%Hpo (_ & _ & Hnp)%Hoo. done.
  - intros r. rewrite <- Ha, !elem_of_union, Hco, Hpo, Hoo. split.
    + intros [[[? _]|?]|[? _]]; auto.
    + intros Hin. destruct (decide (r ∈ p)); [by left; right|].
      destruct (decide (r ∈ c)); [by left; left|by right].
  - intros r Hcr%Hc Hpr%Hp. rewrite Hco, Hpo, Hoo. tauto.
Qed.

Lemma extract_repositories_partition_witness :
  _extract_repositories_data sample_payload = Ok sample_repos_data ∧
  repos_commit_only sample_repos_data ## repos_pr_only sample_repos_data.
Proof.
  split; [vm_compute; reflexivity|].
  apply (extract_repositories_partition sample_payload sample_repos_data).
  vm_compute; reflexivity.
Defined.

(** C2: a tuple all of whose occurrences in the payload, under whatever
    contribution type, carry a true [isPrivate] or a true [isFork] flag is in
    none of the three output sets. *)
Theorem flagged_repository_never_output (user_data : json) (rd : repos_data)
    (r : repo_tuple) :
  _extract_repositories_data user_data = Ok rd →
  (∀ k repo, payload_occurs user_data k repo → names repo r → flagged repo) →
  (r ∉ repos_commit_only rd) ∧ (r ∉ repos_pr_only rd) ∧ (r ∉ repos_other rd).
Proof.
  intros (c & p & a & Hws & Hco & Hpo & Hoo)%extract_repositories_data_Ok Hflag.
  apply working_sets_Ok in Hws as (Hc & Hp & Ha).
  assert (Hnone : ∀ k, ¬ contribution user_data k r).
  { intros k (repo & Hocc & Hadm).
    eapply admitted_not_flagged; [done|].
    eapply Hflag; [done|]. by apply admitted_names. }
  rewrite Hco, Hpo, Hoo, Hc, Hp, Ha. split_and!.
  - intros [?%Hnone _]. done.
  - apply Hnone.
  - intros [[k ?%Hnone] _]. done.
Qed.

Ltac list_cases H :=
  repeat (apply elem_of_cons in H as [H|H]; [try (injection H as ??); subst|]);
  try (apply elem_of_nil in H; destruct H).

Ltac field_cases Hocc Hin Hrepo :=
  destruct Hocc as (? & ? & ? & Hv & Hit & Hin & Hrepo);
  vm_compute in Hv; injection Hv as <-;
  vm_compute in Hit; injection Hit as <-;
  list_cases Hin; vm_compute in Hrepo; injection Hrepo as <-.

(** Every occurrence of the private repository of [sample_payload] is flagged. *)
Lemma sample_secret_flagged (k : contribution_kind) (repo : json) :
  payload_occurs sample_payload k repo →
  names repo ("me/secret", "https://github.com/me/secret") →
  flagged repo.
Proof.
  intros (es & key & cc & Hes & Hin & Hpre & Hcc & Hocc) [Hn Hu].
  vm_compute in Hes. injection Hes as <-.
  list_cases Hin; [|discriminate Hcc].
  destruct k; simpl in Hocc.
  - field_cases Hocc Hin Hrepo; try discriminate Hn.
    left. by exists (JBool true).
  - field_cases Hocc Hin Hrepo; discriminate Hn.
  - destruct Hocc as [_ Hocc]. field_cases Hocc Hin Hrepo; discriminate Hn.
  - destruct Hocc as [_ Hocc]. field_cases Hocc Hin Hrepo.
  - destruct Hocc as (? & ? & ? & ? & ? & Hrc & Hv & Hit & Hin & Hnode & Hrepo).
    vm_compute in Hrc; injection Hrc as <-.
    vm_compute in Hv; injection Hv as <-.
    vm_compute in Hit; injection Hit as <-.
    list_cases Hin; vm_compute in Hnode; injection Hnode as <-;
      vm_compute in Hrepo; injection Hrepo as <-; discriminate Hn.
Qed.

Lemma flagged_repository_never_output_witness :
  ("me/secret", "https://github.com/me/secret") ∉ repos_commit_only sample_repos_data.
Proof.
  apply (flagged_repository_never_output sample_payload sample_repos_data
           ("me/secret", "https://github.com/me/secret")).
  - vm_compute; reflexivity.
  - exact sample_secret_flagged.
Defined.

(** ** The order behind [sorted] *)

Section tuple_order.
Implicit Types (r : repo_tuple) (s : gset repo_tuple).

Lemma ltb_leb (a b : string) : String.ltb a b = negb (String.leb b a).
Proof.
  unfold String.ltb, String.leb. rewrite (String.compare_antisym b a).
  by destruct (String.compare a b).
Qed.

Lemma tuple_le_alt r1 r2 :
  tuple_le r1 r2 ↔
  String.le r1.1 r2.1 ∧ (r1.1 = r2.1 → String.le r1.2 r2.2).
Proof.
  unfold tuple_le, tuple_lt, String.le. rewrite !ltb_leb.
  destruct (String.eqb_spec r2.1 r1.1) as [Heq|Hne];
    destruct (String.leb r1.1 r2.1), (String.leb r1.2 r2.2); simpl;
    intuition (try done; congruence).
Qed.

#[global] Instance tuple_le_total : Total tuple_le.
Proof.
  intros r1 r2. rewrite !tuple_le_alt.
  destruct (total String.le r1.1 r2.1) as [H1|H1],
           (total String.le r1.2 r2.2) as [H2|H2];
    destruct (decide (r1.1 = r2.1)) as [Heq|Hne];
    try (left; split; [done|intros ?; done]);
    try (right; split; [done|intros ?; done]).
  - right. split; [by rewrite Heq|done].
  - left. split; [by rewrite Heq|done].
Qed.

#[global] Instance tuple_le_trans : Transitive tuple_le.
Proof.
  intros r1 r2 r3. rewrite !tuple_le_alt. intros [H12 H12'] [H23 H23'].
  split; [by etrans|]. intros Heq.
  assert (r1.1 = r2.1) as E1.
  { apply (anti_symm String.le); [done|]. by rewrite Heq. }
  assert (r2.1 = r3.1) as E2 by congruence.
  trans r2.2; [by apply H12'|by apply H23'].
Qed.

#[global] Instance tuple_le_antisymm : AntiSymm (=) tuple_le.
Proof.
  intros [n1 u1] [n2 u2]. rewrite !tuple_le_alt. simpl. intros [H1 H1'] [H2 H2'].
  assert (n1 = n2) as -> by by apply (anti_symm String.le).
  f_equal. apply (anti_symm String.le); auto.
Qed.

(** Strictly ascending by the pair [(full_name, url)]. *)
Definition tuple_strict r1 r2 : Prop := tuple_lt r1 r2 = true.
(** Ascending, and strictly ascending, by [full_name] alone. *)
Definition name_le r1 r2 : Prop := String.le r1.1 r2.1.
Definition name_lt r1 r2 : Prop := String.ltb r1.1 r2.1 = true.

Lemma tuple_strict_alt r1 r2 : tuple_strict r1 r2 ↔ tuple_le r1 r2 ∧ r1 ≠ r2.
Proof.
  split.
  - intros Hlt. split.
    + destruct (total tuple_le r1 r2) as [|Hle]; [done|].
      unfold tuple_le, tuple_strict in *. congruence.
    + intros ->. unfold tuple_strict, tuple_lt in Hlt. rewrite !ltb_leb in Hlt.
      pose proof (reflexivity (R:=String.le) r2.1) as H1.
      pose proof (reflexivity (R:=String.le) r2.2) as H2.
      unfold String.le in H1, H2.
      destruct (String.leb r2.1 r2.1), (String.leb r2.2 r2.2); try done.
      simpl in Hlt. by rewrite andb_false_r in Hlt.
  - intros [Hle Hne]. unfold tuple_strict.
    destruct (tuple_lt r1 r2) eqn:Hlt; [done|].
    destruct Hne. by apply (anti_symm tuple_le).
Qed.

Lemma name_lt_alt r1 r2 : name_lt r1 r2 ↔ name_le r1 r2 ∧ r1.1 ≠ r2.1.
Proof.
  unfold name_lt, name_le. split.
  - intros Hlt. split.
    + destruct (total String.le r1.1 r2.1) as [|Hle]; [done|].
      rewrite ltb_leb in Hlt. unfold String.le in Hle.
      by destruct (String.leb r2.1 r1.1).
    + intros Heq. rewrite Heq, ltb_leb in Hlt.
      pose proof (reflexivity (R:=String.le) r2.1) as H1. unfold String.le in H1.
      by destruct (String.leb r2.1 r2.1).
  - intros [Hle Hne]. rewrite ltb_leb.
    destruct (String.leb r2.1 r1.1) eqn:Hge; [|done].
    destruct Hne. apply (anti_symm String.le); [done|].
    unfold String.le. by rewrite Hge.
Qed.

Lemma sorted_Permutation s : sorted s ≡ₚ elements s.
Proof. apply merge_sort_Permutation. Qed.

Lemma sorted_NoDup s : NoDup (sorted s).
Proof. rewrite sorted_Permutation. apply NoDup_elements. Qed.

Lemma elem_of_sorted s r : r ∈ sorted s ↔ r ∈ s.
Proof. by rewrite sorted_Permutation, elem_of_elements. Qed.

Lemma sorted_StronglySorted s : StronglySorted tuple_le (sorted s).
Proof. apply StronglySorted_merge_sort; apply _. Qed.

(** Whatever order the set is enumerated in, sorting gives the same list. *)
Lemma sorted_any_enumeration s (l : list repo_tuple) :
  l ≡ₚ elements s → merge_sort tuple_le l = sorted s.
Proof.
  intros Hl. apply (StronglySorted_unique tuple_le).
  - apply StronglySorted_merge_sort; apply _.
  - apply sorted_StronglySorted.
  - by rewrite merge_sort_Permutation, sorted_Permutation.
Qed.

(** Strengthen the relation of a sorted list using what holds of its elements. *)
Lemma StronglySorted_strengthen {A} (R1 R2 : relation A) (l : list A) :
  NoDup l →
  (∀ x y, x ∈ l → y ∈ l → x ≠ y → R1 x y → R2 x y) →
  StronglySorted R1 l → StronglySorted R2 l.
Proof.
  intros Hnd HR Hs. induction Hs as [|x l Hs IH Hall]; [constructor|].
  apply NoDup_cons in Hnd as [Hx Hnd]. constructor.
  - apply IH; [done|]. intros y z Hy Hz. apply HR; by apply list_elem_of_further.
  - rewrite Forall_forall in Hall |- *. intros y Hy. apply HR.
    + apply list_elem_of_here.
    + by apply list_elem_of_further.
    + intros ->. done.
    + by apply Hall.
Qed.

Lemma sorted_tuple_strict s : StronglySorted tuple_strict (sorted s).
Proof.
  eapply StronglySorted_strengthen;
    [apply sorted_NoDup| |apply sorted_StronglySorted].
  intros x y _ _ Hne Hle. by apply tuple_strict_alt.
Qed.

Lemma sorted_name_le s : StronglySorted name_le (sorted s).
Proof.
  eapply StronglySorted_strengthen;
    [apply sorted_NoDup| |apply sorted_StronglySorted].
  intros x y _ _ _ Hle. by apply tuple_le_alt in Hle as [? _].
Qed.

Lemma sorted_name_lt s :
  (∀ r1 r2, r1 ∈ s → r2 ∈ s → r1.1 = r2.1 → r1 = r2) →
  StronglySorted name_lt (sorted s).
Proof.
  intros Huniq.
  eapply StronglySorted_strengthen;
    [apply sorted_NoDup| |apply sorted_StronglySorted].
  intros x y Hx%elem_of_sorted Hy%elem_of_sorted Hne Hle.
  apply name_lt_alt. split; [by apply tuple_le_alt in Hle as [? _]|].
  intros Heq. destruct Hne. by apply Huniq.
Qed.
End tuple_order.

(** ** The renderer *)

Definition section_heading (section_key : string) (translator : Translator)
  : string :=
  "## " +:+ get_text translator section_key +:+ nl.

Definition key_translator : Translator := {| get_text := λ key, key |}.

Lemma build_readme_section_nonempty (section_key : string)
    (s : gset repo_tuple) (user_comments : gmap string string)
    (translator : Translator) :
  s ≠ ∅ →
  _build_readme_section section_key s user_comments translator
  = section_heading section_key translator
    :: (bullet_line user_comments <$> sorted s).
Proof. intros Hne. unfold _build_readme_section. by rewrite decide_False. Qed.

Lemma build_readme_section_empty (section_key : string)
    (user_comments : gmap string string) (translator : Translator) :
  _build_readme_section section_key ∅ user_comments translator = [].
Proof. unfold _build_readme_section. by rewrite decide_True. Qed.

(** A payload in which one full name comes with two different URLs. *)
Definition same_name_payload : json :=
  JObj [
    ("contributionsCollection", JObj [
       ("commitContributionsByRepository", JList [
          contribution_item (repository "org/repo" "https://github.com/org/repo" false false);
          contribution_item (repository "org/repo" "https://github.com/Org/Repo" false false) ]) ]) ].

Definition same_name_set : gset repo_tuple :=
  {[ ("org/repo", "https://github.com/org/repo");
     ("org/repo", "https://github.com/Org/Repo") ]}.

(** Without the uniqueness of full names the bullets need not be strictly
    ascending by full name: here the set holds one full name under two
    URLs and the section has two bullets with that name. *)
Lemma same_name_bullets_example :
  (repos_commit_only <$> _extract_repositories_data same_name_payload)
    = Ok same_name_set ∧
  _build_readme_section "categories.commit_only" same_name_set ∅ key_translator
    = [ "## categories.commit_only" +:+ nl;
        "- [org/repo](https://github.com/Org/Repo)";
        "- [org/repo](https://github.com/org/repo)" ] ∧
  ¬ StronglySorted name_lt (sorted same_name_set).
Proof.
  split_and!; [vm_compute; reflexivity..|].
  assert (sorted same_name_set
          = [ ("org/repo", "https://github.com/Org/Repo");
              ("org/repo", "https://github.com/org/repo") ]) as ->
    by (vm_compute; reflexivity).
  intros Hs. apply StronglySorted_inv in Hs as [_ Hall].
  apply Forall_cons in Hall as [Hlt _]. vm_compute in Hlt. discriminate Hlt.
Qed.

(** C3: for a category set in which no two repositories share a full name
    (full names identify repositories), the section is the heading followed
    by the bullets of [sorted], one per repository of the set; the bullets
    are strictly ascending by full name in the ordinal order of strings; the
    sorted list is the same for every order in which the set is enumerated,
    and the section is the same for every permutation of the order in which
    the repositories were put into the set. *)
Theorem section_bullets_strictly_ascending (section_key : string)
    (s : gset repo_tuple) (user_comments : gmap string string)
    (translator : Translator) :
  (∀ r1 r2, r1 ∈ s → r2 ∈ s → r1.1 = r2.1 → r1 = r2) →
  _build_readme_section section_key s user_comments translator
  = (if decide (s = ∅) then []
     else section_heading section_key translator
          :: (bullet_line user_comments <$> sorted s)) ∧
  sorted s ≡ₚ elements s ∧
  StronglySorted name_lt (sorted s) ∧
  (∀ l, l ≡ₚ elements s → merge_sort tuple_le l = sorted s) ∧
  (∀ l1 l2 : list repo_tuple,
     list_to_set l1 = s → l1 ≡ₚ l2 →
     _build_readme_section section_key (list_to_set l2) user_comments translator
     = _build_readme_section section_key s user_comments translator).
Proof.
  intros Huniq. split_and!.
  - unfold _build_readme_section. by case_decide.
  - apply sorted_Permutation.
  - by apply sorted_name_lt.
  - apply sorted_any_enumeration.
  - intros l1 l2 <- Hperm. by rewrite (list_to_set_perm_L l1 l2 Hperm).
Qed.

Definition two_repo_set : gset repo_tuple :=
  {[ ("org/b", "https://github.com/org/b");
     ("org/a", "https://github.com/org/a") ]}.

Lemma section_bullets_strictly_ascending_witness :
  _build_readme_section "categories.commit_only" two_repo_set ∅ key_translator
  = [ "## categories.commit_only" +:+ nl;
      "- [org/a](https://github.com/org/a)";
      "- [org/b](https://github.com/org/b)" ] ∧
  StronglySorted name_lt (sorted two_repo_set).
Proof.
  destruct (section_bullets_strictly_ascending "categories.commit_only"
              two_repo_set ∅ key_translator) as (Hsection & _ & Hsorted & _).
  - intros r1 r2 H1 H2 Heq.
    apply elem_of_union in H1 as [H1|H1]; apply elem_of_singleton in H1;
      apply elem_of_union in H2 as [H2|H2]; apply elem_of_singleton in H2;
      subst r1 r2; first [reflexivity | discriminate Heq].
  - split; [|exact Hsorted]. vm_compute; reflexivity.
Defined.

(** C8: a section built from an empty set is the empty list of lines, with
    or without separator; the document leaves out the lines of every empty
    category; with all three sets empty the document is the title line,
    made of the translated label and the username. *)
Theorem empty_sets_emit_nothing (username : string) (rd : repos_data)
    (user_comments : gmap string string) (translator : Translator) :
  (∀ section_key,
     _build_readme_section section_key ∅ user_comments translator = [] ∧
     with_separator
       (_build_readme_section section_key ∅ user_comments translator) = []) ∧
  (repos_commit_only rd = ∅ →
   _build_readme_content username rd user_comments translator
   = str_join nl
       ([title_line username translator]
        ++ with_separator (_build_readme_section "categories.pull_requests"
                             (repos_pr_only rd) user_comments translator)
        ++ with_separator (_build_readme_section "categories.other_contributions"
                             (repos_other rd) user_comments translator))) ∧
  (repos_pr_only rd = ∅ →
   _build_readme_content username rd user_comments translator
   = str_join nl
       ([title_line username translator]
        ++ _build_readme_section "categories.commit_only"
             (repos_commit_only rd) user_comments translator
        ++ with_separator (_build_readme_section "categories.other_contributions"
                             (repos_other rd) user_comments translator))) ∧
  (repos_other rd = ∅ →
   _build_readme_content username rd user_comments translator
   = str_join nl
       ([title_line username translator]
        ++ _build_readme_section "categories.commit_only"
             (repos_commit_only rd) user_comments translator
        ++ with_separator (_build_readme_section "categories.pull_requests"
                             (repos_pr_only rd) user_comments translator))) ∧
  (repos_commit_only rd = ∅ → repos_pr_only rd = ∅ → repos_other rd = ∅ →
   _build_readme_content username rd user_comments translator
   = "# " +:+ get_text translator "categories.profile_git" +:+ " : "
     +:+ username +:+ nl).
Proof.
  unfold _build_readme_content, readme_lines. split_and!.
  - intros section_key. by rewrite build_readme_section_empty.
  - intros ->. by rewrite build_readme_section_empty.
  - intros ->. rewrite build_readme_section_empty. simpl.
    by rewrite app_nil_r.
  - intros ->. rewrite build_readme_section_empty. simpl.
    by rewrite app_nil_r.
  - intros -> -> ->. by rewrite !build_readme_section_empty.
Qed.

Definition empty_repos_data : repos_data :=
  {| repos_commit_only := ∅; repos_pr_only := ∅; repos_other := ∅ |}.

Lemma empty_sets_emit_nothing_witness :
  _build_readme_content "octocat" empty_repos_data ∅ key_translator
  = "# categories.profile_git : octocat" +:+ nl.
Proof.
  apply (empty_sets_emit_nothing "octocat" empty_repos_data ∅ key_translator);
    reflexivity.
Defined.

(** C9: for a repository of the set, the section rendered with a comment
    stored under its full name has the bullet with the comment suffix; the
    section rendered after that comment is deleted has, in the same place,
    the bullet without the suffix. *)
Theorem annotation_round_trip (section_key : string) (s : gset repo_tuple)
    (user_comments : gmap string string) (translator : Translator)
    (name url comment : string) :
  (name, url) ∈ s →
  ∃ i,
    _build_readme_section section_key s (<[name := comment]> user_comments)
      translator !! i
    = Some (("- [" +:+ name +:+ "](" +:+ url +:+ ")") +:+ " — " +:+ comment) ∧
    _build_readme_section section_key s
      (delete name (<[name := comment]> user_comments)) translator !! i
    = Some ("- [" +:+ name +:+ "](" +:+ url +:+ ")").
Proof.
  intros Hin. assert (s ≠ ∅) as Hne by set_solver.
  apply elem_of_sorted, list_elem_of_lookup in Hin as [j Hj].
  exists (S j). rewrite !build_readme_section_nonempty by done. simpl.
  rewrite !list_lookup_fmap, Hj. simpl. unfold bullet_line. simpl.
  by rewrite lookup_insert_eq, lookup_delete_eq.
Qed.

Lemma annotation_round_trip_witness :
  ∃ i,
    _build_readme_section "categories.commit_only" two_repo_set
      (<["org/a" := "parser fixes"]> ∅) key_translator !! i
    = Some ("- [org/a](https://github.com/org/a) — parser fixes") ∧
    _build_readme_section "categories.commit_only" two_repo_set
      (delete "org/a" (<["org/a" := "parser fixes"]> ∅)) key_translator !! i
    = Some ("- [org/a](https://github.com/org/a)").
Proof.
  apply (annotation_round_trip "categories.commit_only" two_repo_set ∅
           key_translator "org/a" "https://github.com/org/a" "parser fixes").
  apply elem_of_union. right. by apply elem_of_singleton.
Defined.

(** ** The API client *)

(** A world for examples: the account lookup of [octocat] gets
    [lookup_response], every other request gets [other_response]. *)
Definition sample_world (lookup_response other_response : http_outcome) : world :=
  {| post := λ query token,
       if String.eqb query (user_info_query "octocat") then lookup_response
       else other_response;
     iso_year := λ s,
       if String.eqb s "2023-05-01T12:00:00+00:00" then Some 2023%Z else None;
     now_year := 2024 |}.

Definition error_payload : json :=
  JObj [ ("errors", JList [JObj [("message", JStr "Bad credentials")]]) ].

Definition created_payload : json :=
  JObj [ ("data", JObj [("user", JObj [("createdAt", JStr "2023-05-01T12:00:00Z")])]) ].

(** C4, as stated, fails: a transport failure, and a body that is not JSON,
    make [test_github_auth] raise instead of returning false. *)
Lemma test_github_auth_counterexample :
  test_github_auth (sample_world TransportFailure TransportFailure)
    "octocat" "token" = Raise ConnectionError ∧
  test_github_auth (sample_world (Body None) (Body None))
    "octocat" "token" = Raise JSONDecodeError ∧
  test_github_auth (sample_world TransportFailure TransportFailure)
    "octocat" "token" ≠ Ok false.
Proof. split_and!; [vm_compute; reflexivity..|]. vm_compute. discriminate. Qed.

(** C4, amended: [test_github_auth] returns true exactly when the body is a
    JSON object without a top-level [errors] key whose [data.viewer.login]
    is present and not null (an empty login string counts as present); it
    returns false for an object that has an [errors] key; a transport
    failure or a body that is not JSON is raised to the caller. *)
Theorem test_github_auth_spec (w : world) (username token : string) :
  (test_github_auth w username token = Ok true ↔
   ∃ o d v login,
     post w auth_query token = Body (Some (JObj o)) ∧
     alookup "errors" o = None ∧
     alookup "data" o = Some (JObj d) ∧
     alookup "viewer" d = Some (JObj v) ∧
     alookup "login" v = Some login ∧ login ≠ JNull) ∧
  (∀ o, post w auth_query token = Body (Some (JObj o)) →
        is_Some (alookup "errors" o) →
        test_github_auth w username token = Ok false) ∧
  (post w auth_query token = TransportFailure →
   test_github_auth w username token = Raise ConnectionError) ∧
  (post w auth_query token = Body None →
   test_github_auth w username token = Raise JSONDecodeError).
Proof.
  unfold test_github_auth, post_json. split_and!.
  - split.
    + intros H. destruct (post w auth_query token) as [|[data|]]; try done.
      simpl in H. apply bind_Ok in H as (has_errors & Hc & H).
      destruct has_errors; [done|].
      apply bind_Ok in H as (d & Hd & H).
      apply bind_Ok in H as (v & Hv & H).
      apply bind_Ok in H as (login & Hl & H).
      destruct data as [| | | | |o]; try done.
      destruct d as [| | | | |d]; try done.
      destruct v as [| | | | |v]; try done.
      simpl in Hc, Hd, Hv, Hl.
      injection Hc as Hc. apply bool_decide_eq_false in Hc.
      rewrite <- eq_None_not_Some in Hc.
      injection Hd as Hd. injection Hv as Hv. injection Hl as Hl.
      injection H as H.
      destruct (alookup "data" o) as [x|] eqn:Ed; simplify_eq/=.
      destruct (alookup "viewer" d) as [x|] eqn:Ev; simplify_eq/=.
      destruct (alookup "login" v) as [login|] eqn:El; simplify_eq/=.
      exists o, d, v, login. split_and!; try done. intros ->. done.
    + intros (o & d & v & login & -> & He & Hd & Hv & Hl & Hnn). simpl.
      rewrite He. simpl. rewrite Hd. simpl. rewrite Hv. simpl. rewrite Hl. simpl.
      by destruct login.
  - intros o -> He. simpl. by rewrite bool_decide_eq_true_2.
  - by intros ->.
  - by intros ->.
Qed.

Definition viewer_payload : json :=
  JObj [ ("data", JObj [("viewer", JObj [("login", JStr "octocat")])]) ].

Lemma test_github_auth_spec_witness :
  test_github_auth (sample_world (Body None) (Body (Some error_payload)))
    "octocat" "token" = Ok false.
Proof.
  destruct (test_github_auth_spec
              (sample_world (Body None) (Body (Some error_payload)))
              "octocat" "token") as (_ & Herr & _ & _).
  apply (Herr [("errors", JList [JObj [("message", JStr "Bad credentials")]])]).
  - vm_compute; reflexivity.
  - vm_compute. by eexists.
Defined.

(** A valid login is accepted, and so is an empty login string. *)
Lemma test_github_auth_examples :
  test_github_auth (sample_world (Body None) (Body (Some viewer_payload)))
    "octocat" "token" = Ok true ∧
  test_github_auth
    (sample_world (Body None)
       (Body (Some (JObj [("data", JObj [("viewer",
                      JObj [("login", JStr EmptyString)])])]))))
    "octocat" "token" = Ok true.
Proof. split; vm_compute; reflexivity. Qed.

(** ** The pipeline *)

Lemma get_user_creation_year_errors (w : world) (username token : string)
    (o : list (string * json)) :
  post w (user_info_query username) token = Body (Some (JObj o)) →
  is_Some (alookup "errors" o) →
  _get_user_creation_year w username token = Ok None.
Proof.
  intros Hpost He. unfold _get_user_creation_year, post_json.
  rewrite Hpost. simpl. by rewrite bool_decide_eq_true_2.
Qed.

Lemma fetch_contributions_data_none (w : world) (username token query : string)
    (o : list (string * json)) :
  post w (str_replace "{username}" username query) token
    = Body (Some (JObj o)) →
  is_Some (alookup "errors" o) ∨
  (∃ d, alookup "data" o = Some (JObj d) ∧ alookup "user" d = Some JNull) →
  _fetch_contributions_data w username token query = Ok None.
Proof.
  intros Hpost Hcase. unfold _fetch_contributions_data, post_json.
  rewrite Hpost. simpl.
  destruct (decide (is_Some (alookup "errors" o))) as [He|He].
  { by rewrite bool_decide_eq_true_2. }
  rewrite bool_decide_eq_false_2 by done.
  destruct Hcase as [?|(d & Hd & Hu)]; [done|].
  simpl. rewrite Hd. simpl. by rewrite Hu.
Qed.

(** C5, as stated, fails: a malformed response (a body that is not JSON, or
    one that lacks the expected nested fields) makes the pipeline raise
    instead of returning the empty document, at the lookup and at the
    fetch alike. *)
Lemma generate_readme_content_counterexample :
  generate_readme_content (sample_world (Body None) (Body None))
    "octocat" "token" ∅ key_translator = Raise JSONDecodeError ∧
  generate_readme_content
    (sample_world (Body (Some (JObj [("data", JObj [("user", JNull)])])))
       (Body None))
    "octocat" "token" ∅ key_translator = Raise TypeError ∧
  generate_readme_content
    (sample_world (Body (Some created_payload)) (Body None))
    "octocat" "token" ∅ key_translator = Raise JSONDecodeError ∧
  generate_readme_content (sample_world (Body None) (Body None))
    "octocat" "token" ∅ key_translator ≠ Ok (EmptyString, None).
Proof. split_and!; [vm_compute; reflexivity..|]. vm_compute. discriminate. Qed.

(** An account lookup that answers without [errors] but without a
    creation date that parses raises. *)
Lemma get_user_creation_year_raises (w : world) (username token : string)
    (o : list (string * json)) :
  post w (user_info_query username) token = Body (Some (JObj o)) →
  alookup "errors" o = None →
  (∀ d user created_at year,
     ¬ (alookup "data" o = Some (JObj d) ∧
        alookup "user" d = Some (JObj user) ∧
        alookup "createdAt" user = Some (JStr created_at) ∧
        iso_year w (str_replace "Z" "+00:00" created_at) = Some year)) →
  ∃ e, _get_user_creation_year w username token = Raise e.
Proof.
  intros Hpost He Hnone. unfold _get_user_creation_year, post_json.
  rewrite Hpost. simpl. rewrite He. simpl.
  destruct (alookup "data" o) as [data|] eqn:Ed; simpl; [|by eexists].
  destruct data as [| | | | |d]; simpl; try by eexists.
  destruct (alookup "user" d) as [user|] eqn:Eu; simpl; [|by eexists].
  destruct user as [| | | | |usr]; simpl; try by eexists.
  destruct (alookup "createdAt" usr) as [created|] eqn:Ec; simpl; [|by eexists].
  destruct created as [| | |s| |]; simpl; try by eexists.
  destruct (iso_year w _) as [year|] eqn:Ey; [|by eexists].
  destruct (Hnone d usr s year). done.
Qed.

(** A contribution fetch that answers without [errors] and without
    [data.user] raises. *)
Lemma fetch_contributions_data_raises (w : world)
    (username token query : string) (o : list (string * json)) :
  post w (str_replace "{username}" username query) token
    = Body (Some (JObj o)) →
  alookup "errors" o = None →
  (∀ d user, ¬ (alookup "data" o = Some (JObj d) ∧
                alookup "user" d = Some user)) →
  ∃ e, _fetch_contributions_data w username token query = Raise e.
Proof.
  intros Hpost He Hnone. unfold _fetch_contributions_data, post_json.
  rewrite Hpost. simpl. rewrite He. simpl.
  destruct (alookup "data" o) as [data|] eqn:Ed; simpl; [|by eexists].
  destruct data as [| | | | |d]; simpl; try by eexists.
  destruct (alookup "user" d) as [user|] eqn:Eu; simpl; [|by eexists].
  destruct (Hnone d user). done.
Qed.

(** C5, amended: the pipeline returns the empty string with the empty
    record when the account lookup answers with an object that has a
    top-level [errors] key, or when the lookup yields a year and the fetch
    answers with an object that has a top-level [errors] key or a null
    [data.user]. It catches nothing: a transport failure or a body that is
    not JSON, at either request, a lookup object without [errors] whose
    [data.user.createdAt] is missing, is not a string or does not parse, a
    fetch object without [errors] that lacks [data] or [user], and an
    exception of the aggregator on the fetched user object are all raised
    to the caller. *)
Theorem generate_readme_content_failures (w : world) (username token : string)
    (user_comments : gmap string string) (translator : Translator) :
  (∀ o, post w (user_info_query username) token = Body (Some (JObj o)) →
        is_Some (alookup "errors" o) →
        generate_readme_content w username token user_comments translator
        = Ok (EmptyString, None)) ∧
  (∀ created_year o,
     _get_user_creation_year w username token = Ok (Some created_year) →
     post w (str_replace "{username}" username
               (_build_contributions_query created_year (now_year w))) token
       = Body (Some (JObj o)) →
     is_Some (alookup "errors" o) ∨
     (∃ d, alookup "data" o = Some (JObj d) ∧ alookup "user" d = Some JNull) →
     generate_readme_content w username token user_comments translator
     = Ok (EmptyString, None)) ∧
  (post w (user_info_query username) token = TransportFailure →
   generate_readme_content w username token user_comments translator
   = Raise ConnectionError) ∧
  (post w (user_info_query username) token = Body None →
   generate_readme_content w username token user_comments translator
   = Raise JSONDecodeError) ∧
  (∀ o, post w (user_info_query username) token = Body (Some (JObj o)) →
        alookup "errors" o = None →
        (∀ d user created_at year,
           ¬ (alookup "data" o = Some (JObj d) ∧
              alookup "user" d = Some (JObj user) ∧
              alookup "createdAt" user = Some (JStr created_at) ∧
              iso_year w (str_replace "Z" "+00:00" created_at) = Some year)) →
        ∃ e, generate_readme_content w username token user_comments translator
             = Raise e) ∧
  (∀ created_year,
     _get_user_creation_year w username token = Ok (Some created_year) →
     post w (str_replace "{username}" username
               (_build_contributions_query created_year (now_year w))) token
       = TransportFailure →
     generate_readme_content w username token user_comments translator
     = Raise ConnectionError) ∧
  (∀ created_year,
     _get_user_creation_year w username token = Ok (Some created_year) →
     post w (str_replace "{username}" username
               (_build_contributions_query created_year (now_year w))) token
       = Body None →
     generate_readme_content w username token user_comments translator
     = Raise JSONDecodeError) ∧
  (∀ created_year o,
     _get_user_creation_year w username token = Ok (Some created_year) →
     post w (str_replace "{username}" username
               (_build_contributions_query created_year (now_year w))) token
       = Body (Some (JObj o)) →
     alookup "errors" o = None →
     (∀ d user, ¬ (alookup "data" o = Some (JObj d) ∧
                   alookup "user" d = Some user)) →
     ∃ e, generate_readme_content w username token user_comments translator
          = Raise e) ∧
  (∀ created_year user_data e,
     _get_user_creation_year w username token = Ok (Some created_year) →
     _fetch_contributions_data w username token
       (_build_contributions_query created_year (now_year w))
       = Ok (Some user_data) →
     _extract_repositories_data user_data = Raise e →
     generate_readme_content w username token user_comments translator
     = Raise e).
Proof.
  split_and!.
  - intros o Hpost He. unfold generate_readme_content.
    by rewrite (get_user_creation_year_errors _ _ _ _ Hpost He).
  - intros y o Hy Hpost Hcase. unfold generate_readme_content.
    rewrite Hy. simpl.
    by rewrite (fetch_contributions_data_none _ _ _ _ _ Hpost Hcase).
  - intros Hpost.
    unfold generate_readme_content, _get_user_creation_year, post_json.
    by rewrite Hpost.
  - intros Hpost.
    unfold generate_readme_content, _get_user_creation_year, post_json.
    by rewrite Hpost.
  - intros o Hpost He Hnone.
    destruct (get_user_creation_year_raises _ _ _ _ Hpost He Hnone) as [e Hr].
    exists e. unfold generate_readme_content. by rewrite Hr.
  - intros y Hy Hpost. unfold generate_readme_content. rewrite Hy. simpl.
    unfold _fetch_contributions_data, post_json. by rewrite Hpost.
  - intros y Hy Hpost. unfold generate_readme_content. rewrite Hy. simpl.
    unfold _fetch_contributions_data, post_json. by rewrite Hpost.
  - intros y o Hy Hpost He Hnone.
    destruct (fetch_contributions_data_raises _ _ _ _ _ Hpost He Hnone)
      as [e Hr].
    exists e. unfold generate_readme_content. rewrite Hy. simpl. by rewrite Hr.
  - intros y ud e Hy Hfetch Hextract. unfold generate_readme_content.
    rewrite Hy. simpl. rewrite Hfetch. simpl. by rewrite Hextract.
Qed.

Lemma generate_readme_content_failures_witness :
  generate_readme_content
    (sample_world (Body (Some error_payload)) (Body None))
    "octocat" "token" ∅ key_translator = Ok (EmptyString, None) ∧
  generate_readme_content
    (sample_world (Body (Some created_payload)) (Body (Some error_payload)))
    "octocat" "token" ∅ key_translator = Ok (EmptyString, None) ∧
  generate_readme_content
    (sample_world (Body (Some created_payload)) TransportFailure)
    "octocat" "token" ∅ key_translator = Raise ConnectionError ∧
  (∃ e, generate_readme_content
          (sample_world (Body (Some created_payload))
             (Body (Some (JObj [("data", JObj [])]))))
          "octocat" "token" ∅ key_translator = Raise e).
Proof.
  split_and!.
  - destruct (generate_readme_content_failures
                (sample_world (Body (Some error_payload)) (Body None))
                "octocat" "token" ∅ key_translator) as (Hlookup & _).
    apply (Hlookup [("errors", JList [JObj [("message", JStr "Bad credentials")]])]).
    + vm_compute; reflexivity.
    + vm_compute. by eexists.
  - destruct (generate_readme_content_failures
                (sample_world (Body (Some created_payload))
                   (Body (Some error_payload)))
                "octocat" "token" ∅ key_translator) as (_ & Hfetch & _).
    apply (Hfetch 2023%Z
             [("errors", JList [JObj [("message", JStr "Bad credentials")]])]).
    + vm_compute; reflexivity.
    + vm_compute; reflexivity.
    + left. vm_compute. by eexists.
  - destruct (generate_readme_content_failures
                (sample_world (Body (Some created_payload)) TransportFailure)
                "octocat" "token" ∅ key_translator)
      as (_ & _ & _ & _ & _ & Htransport & _).
    apply (Htransport 2023%Z); vm_compute; reflexivity.
  - destruct (generate_readme_content_failures
                (sample_world (Body (Some created_payload))
                   (Body (Some (JObj [("data", JObj [])]))))
                "octocat" "token" ∅ key_translator)
      as (_ & _ & _ & _ & _ & _ & _ & Hmissing & _).
    apply (Hmissing 2023%Z [("data", JObj [])]).
    + vm_compute; reflexivity.
    + vm_compute; reflexivity.
    + reflexivity.
    + intros d user [Hd Hu]. injection Hd as <-. discriminate Hu.
Defined.

(** A fetched user object without any contribution field is not a
    failure: the document is the title line alone. *)
Lemma generate_readme_content_no_fields :
  generate_readme_content
    (sample_world (Body (Some created_payload))
       (Body (Some (JObj [("data", JObj [("user",
                      JObj [("login", JStr "octocat")])])]))))
    "octocat" "token" ∅ key_translator
  = Ok ("# categories.profile_git : octocat" +:+ nl, Some empty_repos_data).
Proof. vm_compute; reflexivity. Qed.

(** The pipeline on a full exchange: the sample payload, rendered. *)
Lemma generate_readme_content_example :
  generate_readme_content
    (sample_world (Body (Some created_payload))
       (Body (Some (JObj [("data", JObj [("user", sample_payload)])]))))
    "octocat" "token" (<["org/a" := "parser fixes"]> ∅) key_translator
  = Ok (_build_readme_content "octocat" sample_repos_data
          (<["org/a" := "parser fixes"]> ∅) key_translator,
        Some sample_repos_data).
Proof. vm_compute; reflexivity. Qed.

(** ** The query builder *)

Section query_builder.
Implicit Types (year y : Z).

Definition space : Ascii.ascii := Ascii.ascii_of_nat 32.

(** The text is not empty and does not begin with a blank. *)
Definition solid (t : string) : Prop :=
  ∃ c t', t = String c t' ∧ c ≠ space.

Lemma pretty_N_char_solid (x : N) (s : string) :
  solid (String (pretty_N_char x) s).
Proof.
  exists (pretty_N_char x), s. split; [done|].
  unfold pretty_N_char. by repeat case_match.
Qed.

Lemma pretty_N_go_solid (x : N) (s : string) :
  solid s → solid (pretty_N_go x s).
Proof.
  revert s. induction (N.lt_wf_0 x) as [x _ IH]; intros s Hs.
  destruct (decide (x = 0)%N) as [->|Hx].
  - by rewrite pretty_N_go_0.
  - rewrite pretty_N_go_step by lia.
    apply IH; [apply N.div_lt; lia|]. apply pretty_N_char_solid.
Qed.

Lemma pretty_N_solid (x : N) : solid (pretty x).
Proof.
  unfold pretty, pretty_N. destruct (decide (x = 0)%N) as [->|Hx].
  - by exists "0"%char, EmptyString.
  - rewrite pretty_N_go_step by lia.
    apply pretty_N_go_solid, pretty_N_char_solid.
Qed.

(** [str(year)] begins with a digit or a minus sign. *)
Lemma pretty_Z_solid year : solid (pretty year).
Proof.
  destruct year as [|p|p].
  - by exists "0"%char, EmptyString.
  - apply (pretty_N_solid (Npos p)).
  - exists "-"%char, (pretty (Npos p)). done.
Qed.

#[global] Instance year_alias_inj : Inj (=) (=) year_alias.
Proof.
  intros y1 y2 Heq. unfold year_alias in Heq.
  by apply (inj (String.app _)), (inj pretty) in Heq.
Qed.

Lemma prefix_app (s t : string) : String.prefix s (s +:+ t) = true.
Proof.
  induction s as [|c s IH]; [by destruct t|].
  change (String c s +:+ t) with (String c (s +:+ t)). simpl.
  by destruct (Ascii.ascii_dec c c).
Qed.

Lemma year_alias_prefix year :
  String.prefix collection_prefix (year_alias year) = true.
Proof. apply prefix_app. Qed.

Lemma year_alias_not_current year : year_alias year ≠ collection_prefix.
Proof.
  unfold year_alias. destruct (pretty_Z_solid year) as (c & t & -> & _).
  intros Heq. apply (f_equal String.length) in Heq. vm_compute in Heq.
  discriminate Heq.
Qed.


End query_builder.



















Lemma contributions_queries_example :
  contributions_queries 2022 2024
    = [ _build_current_year_query; _build_year_query 2022;
        _build_year_query 2023 ] ∧
  year_alias 2022 = "contributionsCollection2022" ∧
  year_alias 2023 = "contributionsCollection2023".
Proof. split_and!; vm_compute; reflexivity. Qed.

(** ** The configuration store *)

Section config.
Implicit Types (o : list (string * json)) (h t : list string) (u v k : string).

Lemma alookup_aset_eq k (x : json) o : alookup k (aset k x o) = Some x.
Proof.
  induction o as [|[k' x'] o IH]; simpl.
  - by rewrite String.eqb_refl.
  - destruct (String.eqb_spec k k') as [->|Hne]; simpl.
    + by rewrite String.eqb_refl.
    + by destruct (String.eqb_spec k k').
Qed.

Lemma alookup_aset_ne k k' (x : json) o :
  k ≠ k' → alookup k' (aset k x o) = alookup k' o.
Proof.
  intros Hne. induction o as [|[k0 x0] o IH]; simpl.
  - destruct (String.eqb_spec k' k); [congruence|done].
  - destruct (String.eqb_spec k k0) as [->|Hk]; simpl.
    + destruct (String.eqb_spec k' k0); [congruence|done].
    + destruct (String.eqb_spec k' k0); [done|apply IH].
Qed.

Lemma existsb_is_str u h :
  existsb (is_str u) (JStr <$> h) = bool_decide (u ∈ h).
Proof.
  induction h as [|v h IH]; csimpl; [done|].
  rewrite IH. destruct (String.eqb_spec u v) as [->|Hne]; simpl.
  - symmetry. apply bool_decide_eq_true_2, list_elem_of_here.
  - apply bool_decide_ext. rewrite elem_of_cons. naive_solver.
Qed.

Lemma filter_ne_notin u h : u ∉ h → filter (λ v, v ≠ u) h = h.
Proof.
  induction h as [|v h IH]; [done|]. intros [Hne Hnin]%not_elem_of_cons.
  rewrite filter_cons_True by done. by rewrite IH.
Qed.

(** On a list without repetition, dropping the first occurrence drops them all. *)
Lemma remove_first_strs u h :
  NoDup h → remove_first u (JStr <$> h) = JStr <$> filter (λ v, v ≠ u) h.
Proof.
  induction h as [|v h IH]; [done|]. intros [Hnin Hnd]%NoDup_cons. csimpl.
  destruct (String.eqb_spec u v) as [->|Hne].
  - rewrite filter_cons_False by naive_solver. by rewrite filter_ne_notin.
  - rewrite filter_cons_True by done. csimpl. by rewrite IH.
Qed.

(** The history written by [update_history], for a stored list of strings. *)
Lemma update_history_strs o u h :
  from_option id (JList []) (alookup "username_history" o) = JList (JStr <$> h) →
  NoDup h →
  update_history (JObj o) u
  = Ok (JList (JStr <$> (u :: take 9 (filter (λ v, v ≠ u) h)))).
Proof.
  intros Hh Hnd. unfold update_history. simpl. rewrite Hh. simpl.
  rewrite existsb_is_str. case_bool_decide as Hin; simpl.
  - rewrite remove_first_strs by done. simpl. by rewrite fmap_take.
  - rewrite filter_ne_notin by done. simpl. by rewrite fmap_take.
Qed.

Lemma save_config_Ok (b64 : string → string) (file : config_file)
    (username token theme : string) (user_comments : option json)
    (language : option string) (data : json) :
  save_config b64 file username token theme user_comments language = Ok data →
  ∃ username_history user_configs lang,
    update_history (load_existing file) username = Ok username_history ∧
    update_user_configs (load_existing file) username user_comments
      = Ok user_configs ∧
    match language with
    | Some l => Ok (JStr l)
    | None => py_get (load_existing file) "language" (JStr "en")
    end = Ok lang ∧
    data = JObj [ ("username", JStr username);
                  ("username_history", username_history);
                  ("token", JStr (b64 token));
                  ("theme", JStr theme);
                  ("language", lang);
                  ("user_configs", user_configs) ].
Proof.
  unfold save_config. intros H.
  apply bind_Ok in H as (uh & Huh & H).
  apply bind_Ok in H as (uc & Huc & H).
  apply bind_Ok in H as (lang & Hlang & H).
  injection H as <-. by exists uh, uc, lang.
Qed.

(** Without a comments argument, a dict on disk with a list under
    [username_history] is all [save_config] needs to return. *)
Lemma save_config_returns (b64 : string → string) (file : config_file)
    (username token theme : string) (language : option string) o h :
  load_existing file = JObj o →
  from_option id (JList []) (alookup "username_history" o) = JList (JStr <$> h) →
  NoDup h →
  ∃ data, save_config b64 file username token theme None language = Ok data.
Proof.
  intros Ho Hh Hnd. unfold save_config. rewrite Ho.
  rewrite (update_history_strs _ _ _ Hh Hnd). simpl.
  destruct language; simpl; eauto.
Qed.
End config.

Lemma filter_ne_Permutation (u : string) (h : list string) :
  NoDup h → u ∈ h → h ≡ₚ u :: filter (λ v, v ≠ u) h.
Proof.
  induction h as [|v h IH]; intros Hnd Hin; [by apply elem_of_nil in Hin|].
  apply NoDup_cons in Hnd as [Hnin Hnd].
  destruct (decide (v = u)) as [->|Hne].
  - rewrite filter_cons_False by naive_solver. by rewrite filter_ne_notin.
  - rewrite filter_cons_True by done.
    apply elem_of_cons in Hin as [->|Hin]; [done|].
    rewrite (IH Hnd Hin) at 1. apply Permutation_swap.
Qed.

Lemma take_all_but_last (h : list string) (n : nat) (x : string) :
  length h = S n → last h = Some x → h = take n h ++ [x].
Proof.
  intros Hlen Hlast. destruct (last_Some h x) as [[l ->] _]; [done|].
  rewrite length_app in Hlen. simpl in Hlen.
  rewrite take_app_length' by lia. done.
Qed.

Lemma elem_of_take_filter_ne (u v : string) (n : nat) (h : list string) :
  v ∈ take n (filter (λ w, w ≠ u) h) → v ≠ u ∧ v ∈ h.
Proof. intros Hin. by apply subseteq_take, list_elem_of_filter in Hin. Qed.

(** C7: for a stored history [h] without repetition, the history written by
    [save_config] is the saved username followed by the first nine entries
    of [h] without that username; so the username comes first and only
    once, no entry is repeated, and at most ten entries are kept. A username
    already in a history of at most ten entries is moved to the front, the
    other entries staying; an 11th distinct username takes the front and the
    last (oldest) entry is dropped. *)
Theorem save_config_history (b64 : string → string) (file : config_file)
    (username token theme : string) (user_comments : option json)
    (language : option string) (o : list (string * json)) (h : list string) :
  load_existing file = JObj o →
  from_option id (JList []) (alookup "username_history" o) = JList (JStr <$> h) →
  NoDup h →
  ∃ t,
    t = take 9 (filter (λ v, v ≠ username) h) ∧
    update_history (load_existing file) username
      = Ok (JList (JStr <$> (username :: t))) ∧
    (∀ data,
       save_config b64 file username token theme user_comments language
         = Ok data →
       ∃ o', data = JObj o' ∧
             alookup "username_history" o'
             = Some (JList (JStr <$> (username :: t)))) ∧
    (∃ data,
       save_config b64 file username token theme None language = Ok data) ∧
    (username ∉ t) ∧ NoDup (username :: t) ∧ length (username :: t) ≤ 10 ∧
    (∀ v, v ∈ t → v ∈ h) ∧
    (username ∈ h → length h ≤ 10 → username :: t ≡ₚ h) ∧
    (username ∉ h → length h = 10 →
     t = take 9 h ∧ ∀ x, last h = Some x → x ∉ username :: t).
Proof.
  intros Ho Hh Hnd. exists (take 9 (filter (λ v, v ≠ username) h)).
  assert (Hnin : username ∉ take 9 (filter (λ v, v ≠ username) h)).
  { intros [Hne _]%elem_of_take_filter_ne. done. }
  assert (Hhist := update_history_strs o username h Hh Hnd).
  split_and!.
  - done.
  - by rewrite Ho.
  - intros data (uh & uc & lang & Huh & _ & _ & ->)%save_config_Ok.
    eexists. split; [done|]. simpl. rewrite Ho, Hhist in Huh. by injection Huh as <-.
  - by eapply save_config_returns.
  - done.
  - apply NoDup_cons. split; [done|].
    apply (sublist_NoDup _ (filter (λ v, v ≠ username) h));
      [by apply NoDup_filter|apply sublist_take].
  - simpl. rewrite length_take. lia.
  - intros v [_ Hin]%elem_of_take_filter_ne. done.
  - intros Hin Hlen.
    pose proof (filter_ne_Permutation username h Hnd Hin) as Hperm.
    rewrite take_ge; [done|].
    apply Permutation_length in Hperm. simpl in Hperm. lia.
  - intros Hout Hlen. rewrite filter_ne_notin by done. split; [done|].
    intros x Hlast Hin.
    pose proof (take_all_but_last h 9 x Hlen Hlast) as Hsplit.
    apply elem_of_cons in Hin as [->|Hin].
    + apply Hout. rewrite Hsplit. set_solver.
    + rewrite Hsplit in Hnd. apply NoDup_app in Hnd as (_ & Hdisj & _).
      apply (Hdisj x Hin). set_solver.
Qed.

Definition sample_config : json :=
  JObj [ ("username", JStr "alice");
         ("username_history", JList [JStr "alice"; JStr "bob"; JStr "carol"]);
         ("token", JStr "dG9rZW4=");
         ("theme", JStr "dark");
         ("language", JStr "fr");
         ("user_configs", JObj [
            ("alice", JObj [("comments", JObj [("org/a", JStr "old")])]);
            ("bob", JObj [("comments", JObj [("org/b", JStr "mine")])]) ]) ].

Lemma save_config_history_witness :
  ∃ t,
    t = take 9 (filter (λ v, v ≠ "bob") ["alice"; "bob"; "carol"]) ∧
    update_history (load_existing (Contents sample_config)) "bob"
      = Ok (JList (JStr <$> ("bob" :: t))).
Proof.
  destruct (save_config_history (λ s, s) (Contents sample_config)
              "bob" "token" "dark" None None
              [ ("username", JStr "alice");
                ("username_history", JList [JStr "alice"; JStr "bob"; JStr "carol"]);
                ("token", JStr "dG9rZW4=");
                ("theme", JStr "dark");
                ("language", JStr "fr");
                ("user_configs", JObj [
                   ("alice", JObj [("comments", JObj [("org/a", JStr "old")])]);
                   ("bob", JObj [("comments", JObj [("org/b", JStr "mine")])]) ]) ]
              ["alice"; "bob"; "carol"]) as (t & Ht & Hup & _).
  - reflexivity.
  - reflexivity.
  - apply (bool_decide_unpack _). vm_compute. exact I.
  - exists t. by split.
Defined.

Lemma history_examples :
  update_history (load_existing (Contents sample_config)) "bob"
    = Ok (JList [JStr "bob"; JStr "alice"; JStr "carol"]) ∧
  update_history
    (JObj [("username_history",
            JList (JStr <$> ["u1"; "u2"; "u3"; "u4"; "u5"; "u6"; "u7"; "u8";
                              "u9"; "u10"]))]) "u11"
    = Ok (JList (JStr <$> ["u11"; "u1"; "u2"; "u3"; "u4"; "u5"; "u6"; "u7";
                            "u8"; "u9"])) ∧
  update_history (load_existing Absent) "bob" = Ok (JList [JStr "bob"]).
Proof. split_and!; vm_compute; reflexivity. Qed.

(** What [update_user_configs] writes when a comments map is supplied. *)
Lemma update_user_configs_Some (existing_data : json) (username : string)
    (comments user_configs : json) :
  update_user_configs existing_data username (Some comments) = Ok user_configs →
  ∃ o ucs e,
    existing_data = JObj o ∧
    from_option id (JObj []) (alookup "user_configs" o) = JObj ucs ∧
    from_option id (JObj []) (alookup username ucs) = JObj e ∧
    user_configs
    = JObj (aset username (JObj (aset "comments" comments e))
              (aset username (JObj e) ucs)).
Proof.
  unfold update_user_configs. intros H.
  apply bind_Ok in H as (uc0 & Huc0 & H).
  apply bind_Ok in H as (entry & Hentry & H).
  apply bind_Ok in H as (uc1 & Huc1 & H).
  apply bind_Ok in H as (entry1 & Hentry1 & H).
  apply bind_Ok in H as (entry2 & Hentry2 & H).
  destruct existing_data as [| | | | |o]; try discriminate Huc0.
  destruct uc0 as [| | | | |ucs]; try discriminate Hentry.
  simpl in Huc0, Hentry, Huc1. injection Huc0 as Huc0.
  injection Hentry as Hentry. injection Huc1 as <-.
  simpl in Hentry1. rewrite alookup_aset_eq in Hentry1. injection Hentry1 as <-.
  destruct entry as [| | | | |e]; try discriminate Hentry2.
  simpl in Hentry2. injection Hentry2 as <-. simpl in H. injection H as <-.
  by exists o, ucs, e.
Qed.

(** C10: when [save_config] is given a comments map for [username] and
    returns, the written [user_configs] agrees with the stored one on every
    other username; under [username] it holds the given map as [comments]
    and keeps the other keys of the stored entry. When no language is given,
    the written language is the stored one (["en"] if none is stored). *)
Theorem save_config_frame (b64 : string → string) (file : config_file)
    (username token theme : string) (comments : json)
    (language : option string) (data : json) :
  save_config b64 file username token theme (Some comments) language = Ok data →
  ∃ o o' ucs ucs' e e',
    load_existing file = JObj o ∧ data = JObj o' ∧
    from_option id (JObj []) (alookup "user_configs" o) = JObj ucs ∧
    alookup "user_configs" o' = Some (JObj ucs') ∧
    (∀ v, v ≠ username → alookup v ucs' = alookup v ucs) ∧
    from_option id (JObj []) (alookup username ucs) = JObj e ∧
    alookup username ucs' = Some (JObj e') ∧
    alookup "comments" e' = Some comments ∧
    (∀ k, k ≠ "comments" → alookup k e' = alookup k e) ∧
    (language = None →
     alookup "language" o'
     = Some (from_option id (JStr "en") (alookup "language" o))).
Proof.
  intros (uh & uc & lang & _ & Huc & Hlang & ->)%save_config_Ok.
  apply update_user_configs_Some in Huc as (o & ucs & e & Ho & Hucs & He & ->).
  exists o. eexists. exists ucs.
  exists (aset username (JObj (aset "comments" comments e))
            (aset username (JObj e) ucs)).
  exists e, (aset "comments" comments e).
  split_and!.
  - done.
  - reflexivity.
  - done.
  - reflexivity.
  - intros v Hv. rewrite !alookup_aset_ne by done. done.
  - done.
  - apply alookup_aset_eq.
  - apply alookup_aset_eq.
  - intros k Hk. by apply alookup_aset_ne.
  - intros ->. rewrite Ho in Hlang. simpl in Hlang. injection Hlang as <-. done.
Qed.

Definition new_comments : json := JObj [("org/a", JStr "parser fixes")].

Lemma save_config_frame_witness :
  ∃ data o',
    save_config (λ s, s) (Contents sample_config) "alice" "token" "dark"
      (Some new_comments) None = Ok data ∧
    data = JObj o' ∧
    alookup "language" o' = Some (JStr "fr").
Proof.
  destruct (save_config_frame (λ s, s) (Contents sample_config)
              "alice" "token" "dark" new_comments None
              (JObj [ ("username", JStr "alice");
                      ("username_history",
                       JList [JStr "alice"; JStr "bob"; JStr "carol"]);
                      ("token", JStr "token");
                      ("theme", JStr "dark");
                      ("language", JStr "fr");
                      ("user_configs", JObj [
                         ("alice", JObj [("comments", new_comments)]);
                         ("bob", JObj [("comments",
                                        JObj [("org/b", JStr "mine")])]) ]) ]))
    as (o & o' & ucs & ucs' & e & e' & Ho & Hdata & _ & _ & _ & _ & _ & _ & _ & Hlang).
  - vm_compute; reflexivity.
  - eexists. exists o'. split_and!.
    + vm_compute; reflexivity.
    + exact Hdata.
    + rewrite (Hlang eq_refl). injection Ho as <-. reflexivity.
Defined.

(** The other user's entry survives the save, and so do the other keys. *)
Lemma frame_example :
  save_config (λ s, s) (Contents sample_config) "alice" "token" "light"
    (Some new_comments) None
  = Ok (JObj [ ("username", JStr "alice");
               ("username_history",
                JList [JStr "alice"; JStr "bob"; JStr "carol"]);
               ("token", JStr "token");
               ("theme", JStr "light");
               ("language", JStr "fr");
               ("user_configs", JObj [
                  ("alice", JObj [("comments", new_comments)]);
                  ("bob", JObj [("comments",
                                 JObj [("org/b", JStr "mine")])]) ]) ]).
Proof. vm_compute; reflexivity. Qed.

(** ** The aggregator returns on payloads of the expected shape *)

Section aggregator_total.
Implicit Types (s a c p : gset repo_tuple) (repo item cc v : json).

(** The four fields the query asks of a repository are there, the name
    and the URL as strings. *)
Definition repo_ok repo : Prop :=
  ∃ is_private is_fork name url,
    py_getitem repo "isPrivate" = Ok is_private ∧
    py_getitem repo "isFork" = Ok is_fork ∧
    py_getitem repo "nameWithOwner" = Ok (JStr name) ∧
    py_getitem repo "url" = Ok (JStr url).

Definition items_ok (path : json → result json) v : Prop :=
  ∃ items, py_iter v = Ok items ∧
           ∀ item, item ∈ items → ∃ repo, path item = Ok repo ∧ repo_ok repo.

Definition field_ok cc (field : string) : Prop :=
  ∃ v, py_get cc field (JList []) = Ok v ∧ items_ok item_path v.

Definition block_ok (is_current_year : bool) cc : Prop :=
  field_ok cc "commitContributionsByRepository" ∧
  field_ok cc "pullRequestContributionsByRepository" ∧
  (is_current_year = true →
   field_ok cc "issueContributionsByRepository" ∧
   field_ok cc "pullRequestReviewContributionsByRepository") ∧
  ∃ rc v, py_get cc "repositoryContributions" (JObj []) = Ok rc ∧
          py_get rc "edges" (JList []) = Ok v ∧ items_ok edge_path v.

Definition payload_ok (user_data : json) : Prop :=
  ∃ entries,
    py_items user_data = Ok entries ∧
    ∀ key cc, (key, cc) ∈ entries →
              String.prefix collection_prefix key = true → truthy cc = true →
              block_ok (String.eqb key collection_prefix) cc.

Lemma for_each_total {A S} (body : A → S → result S) (xs : list A) (st : S) :
  (∀ x st0, x ∈ xs → ∃ st1, body x st0 = Ok st1) →
  ∃ st', for_each body xs st = Ok st'.
Proof.
  revert st. induction xs as [|x xs IH]; intros st Hbody; simpl; [by eexists|].
  destruct (Hbody x st) as [st1 ->]; [apply list_elem_of_here|]. simpl.
  apply IH. intros y st0 Hy. apply Hbody. by apply list_elem_of_further.
Qed.

Lemma add_repo_if_valid_total s repo a :
  repo_ok repo → ∃ st, _add_repo_if_valid s repo a = Ok st.
Proof.
  intros (ip & isf & name & url & Hp & Hf & Hn & Hu).
  unfold _add_repo_if_valid. rewrite Hp. simpl.
  destruct (truthy ip); [by eexists|]. rewrite Hf. simpl.
  destruct (truthy isf); [by eexists|]. rewrite Hn, Hu. simpl. by eexists.
Qed.

Lemma for_each_add_item_total v st :
  items_ok item_path v →
  ∃ items st', py_iter v = Ok items ∧ for_each add_item items st = Ok st'.
Proof.
  intros (items & Hitems & Hok). exists items.
  destruct (for_each_total add_item items st) as [st' Hst']; [|by exists st'].
  intros item [s a] Hin. destruct (Hok item Hin) as (repo & Hrepo & Hrok).
  unfold add_item. unfold item_path in Hrepo. rewrite Hrepo. simpl.
  by apply add_repo_if_valid_total.
Qed.

Lemma for_each_all_total (path : json → result json)
    (body : json → gset repo_tuple → result (gset repo_tuple)) v a :
  (∀ item a0, body item a0
              = repo ← path item; snd <$> _add_repo_if_valid ∅ repo a0) →
  items_ok path v →
  ∃ items a', py_iter v = Ok items ∧ for_each body items a = Ok a'.
Proof.
  intros Hbody (items & Hitems & Hok). exists items.
  destruct (for_each_total body items a) as [a' Ha']; [|by exists a'].
  intros item a0 Hin. destruct (Hok item Hin) as (repo & Hrepo & Hrok).
  rewrite Hbody, Hrepo. simpl.
  destruct (add_repo_if_valid_total ∅ repo a0 Hrok) as [st ->]. by eexists.
Qed.

Lemma add_edge_all_unfold item a0 :
  add_edge_all item a0
  = repo ← edge_path item; snd <$> _add_repo_if_valid ∅ repo a0.
Proof.
  unfold add_edge_all, edge_path.
  destruct (py_getitem item "node") as [node|e]; simpl; [|done].
  by destruct (py_getitem node "repository").
Qed.

Lemma process_contribution_collection_total cc c p a cur :
  block_ok cur cc →
  ∃ st, _process_contribution_collection cc c p a cur = Ok st.
Proof.
  intros ((v1 & Hv1 & Hok1) & (v2 & Hv2 & Hok2) & Hcur
          & rc & v5 & Hrc & Hv5 & Hok5).
  unfold _process_contribution_collection.
  destruct (for_each_add_item_total v1 (c, a) Hok1)
    as (items1 & [c1 a1] & Hit1 & Hrun1).
  rewrite Hv1. simpl. rewrite Hit1. simpl. rewrite Hrun1. simpl.
  destruct (for_each_add_item_total v2 (p, a1) Hok2)
    as (items2 & [p2 a2] & Hit2 & Hrun2).
  rewrite Hv2. simpl. rewrite Hit2. simpl. rewrite Hrun2. simpl.
  assert (∃ a3,
    (if cur
     then
       items ← py_get cc "issueContributionsByRepository" (JList []) ≫= py_iter;
       repos_all ← for_each add_item_all items a2;
       items ← py_get cc "pullRequestReviewContributionsByRepository" (JList [])
                 ≫= py_iter;
       for_each add_item_all items repos_all
     else Ok a2) = Ok a3) as [a3 Ha3].
  { destruct cur; [|by eexists].
    destruct (Hcur eq_refl) as ((v3 & Hv3 & Hok3) & (v4 & Hv4 & Hok4)).
    destruct (for_each_all_total item_path add_item_all v3 a2)
      as (items3 & a3 & Hit3 & Hrun3); [done|done|].
    rewrite Hv3. simpl. rewrite Hit3. simpl. rewrite Hrun3. simpl.
    destruct (for_each_all_total item_path add_item_all v4 a3)
      as (items4 & a4 & Hit4 & Hrun4); [done|done|].
    rewrite Hv4. simpl. rewrite Hit4. simpl. rewrite Hrun4. by eexists. }
  rewrite Ha3. simpl. rewrite Hrc. simpl. rewrite Hv5. simpl.
  destruct (for_each_all_total edge_path add_edge_all v5 a3)
    as (edges & a5 & Hit5 & Hrun5); [apply add_edge_all_unfold|done|].
  rewrite Hit5. simpl. rewrite Hrun5. simpl. by eexists.
Qed.

(** On a payload of the expected shape the aggregator returns its record. *)
Lemma extract_repositories_data_total (user_data : json) :
  payload_ok user_data → ∃ rd, _extract_repositories_data user_data = Ok rd.
Proof.
  intros (entries & Hentries & Hok).
  unfold _extract_repositories_data, working_sets. rewrite Hentries. simpl.
  destruct (for_each_total process_entry entries (∅, ∅, ∅))
    as [[[c p] a] Hrun]; [|rewrite Hrun; by eexists].
  intros [key cc] [[c p] a] Hin. simpl.
  destruct (String.prefix collection_prefix key) eqn:Hpre; simpl; [|by eexists].
  destruct (truthy cc) eqn:Hcc; simpl; [|by eexists].
  by apply process_contribution_collection_total, (Hok key cc).
Qed.
End aggregator_total.

(** * Further properties of the pipeline *)

(** ** The rendered document *)

Section document.
Implicit Types (s : gset repo_tuple) (r : repo_tuple).
Implicit Types (user_comments : gmap string string) (translator : Translator).

Lemma str_join_cons_head (sep l : string) (ls : list string) :
  ∃ rest, str_join sep (l :: ls) = l +:+ rest.
Proof.
  destruct ls as [|l' ls]; simpl.
  - exists EmptyString. induction l as [|c l IH]; [done|].
    change (String c l +:+ EmptyString) with (String c (l +:+ EmptyString)).
    by rewrite <- IH.
  - by eexists.
Qed.

Lemma build_readme_content_title (username : string) (rd : repos_data)
    user_comments translator :
  ∃ rest,
    _build_readme_content username rd user_comments translator
    = title_line username translator +:+ rest.
Proof.
  unfold _build_readme_content, readme_lines. rewrite <- !app_assoc. simpl.
  apply str_join_cons_head.
Qed.

(** X1: a run of the pipeline that returns gives either the failure pair
    (empty string, empty record) or a record together with a document that
    begins with the title line and so is not empty: the caller's test on
    the emptiness of the document tells the two apart. *)
Theorem generate_readme_content_sentinel (w : world) (username token : string)
    user_comments translator (doc : string) (data : option repos_data) :
  generate_readme_content w username token user_comments translator
    = Ok (doc, data) →
  (doc = EmptyString ∧ data = None) ∨
  (∃ rd rest,
     data = Some rd ∧
     doc = title_line username translator +:+ rest ∧ doc ≠ EmptyString).
Proof.
  unfold generate_readme_content. intros H.
  apply bind_Ok in H as ([y|] & _ & H); [|injection H as <- <-; by left].
  apply bind_Ok in H as ([user_data|] & _ & H); [|injection H as <- <-; by left].
  apply bind_Ok in H as (rd & _ & H). injection H as <- <-. right.
  destruct (build_readme_content_title username rd user_comments translator)
    as [rest Hrest].
  exists rd, rest. split_and!; [done..|]. rewrite Hrest. done.
Qed.

Lemma generate_readme_content_sentinel_witness :
  (EmptyString = EmptyString ∧ (None : option repos_data) = None) ∨
  (∃ rd rest,
     (None : option repos_data) = Some rd ∧
     EmptyString = title_line "octocat" key_translator +:+ rest ∧
     EmptyString ≠ EmptyString).
Proof.
  apply (generate_readme_content_sentinel
           (sample_world (Body (Some error_payload)) (Body None))
           "octocat" "token" ∅ key_translator EmptyString None).
  vm_compute; reflexivity.
Defined.

(** X2: a section for a non-empty set has one heading and one bullet per
    repository of the set: its length is the size of the set plus one, every
    repository of the set has its bullet in it, and every line of it is the
    heading or the bullet of a repository of the set. *)
Theorem section_one_bullet_per_repository (section_key : string) s
    user_comments translator :
  s ≠ ∅ →
  length (_build_readme_section section_key s user_comments translator)
    = S (size s) ∧
  (∀ line,
     line ∈ _build_readme_section section_key s user_comments translator ↔
     line = section_heading section_key translator ∨
     ∃ r, r ∈ s ∧ line = bullet_line user_comments r).
Proof.
  intros Hne. rewrite build_readme_section_nonempty by done. split.
  - simpl. rewrite length_fmap. f_equal.
    rewrite (Permutation_length (sorted_Permutation s)). done.
  - intros line. rewrite elem_of_cons, list_elem_of_fmap.
    setoid_rewrite elem_of_sorted. naive_solver.
Qed.

Lemma section_one_bullet_per_repository_witness :
  length (_build_readme_section "categories.commit_only" two_repo_set ∅
            key_translator) = S (size two_repo_set).
Proof.
  apply (section_one_bullet_per_repository "categories.commit_only"
           two_repo_set ∅ key_translator).
  intros Heq. apply (f_equal size) in Heq. vm_compute in Heq. discriminate Heq.
Defined.

Lemma bullet_line_insert_ne user_comments (name comment : string) r :
  r.1 ≠ name →
  bullet_line (<[name := comment]> user_comments) r = bullet_line user_comments r.
Proof. intros Hne. unfold bullet_line. by rewrite lookup_insert_ne. Qed.

Lemma bullet_line_delete_ne user_comments (name : string) r :
  r.1 ≠ name →
  bullet_line (delete name user_comments) r = bullet_line user_comments r.
Proof. intros Hne. unfold bullet_line. by rewrite lookup_delete_ne. Qed.

Lemma build_readme_section_comment_frame (section_key : string) s
    user_comments user_comments' translator :
  (∀ r, r ∈ s → bullet_line user_comments' r = bullet_line user_comments r) →
  _build_readme_section section_key s user_comments' translator
  = _build_readme_section section_key s user_comments translator.
Proof.
  intros Hsame. unfold _build_readme_section. case_decide; [done|]. f_equal.
  apply list_fmap_ext. intros i r Hr. apply Hsame, elem_of_sorted.
  by eapply list_elem_of_lookup_2.
Qed.

(** X3: setting or deleting the comment of a full name that no repository
    of the three sets carries leaves the whole document unchanged. *)
Theorem comment_of_absent_repository_ignored (username : string)
    (rd : repos_data) user_comments translator (name comment : string) :
  (∀ r, r ∈ repos_commit_only rd ∪ repos_pr_only rd ∪ repos_other rd →
        r.1 ≠ name) →
  _build_readme_content username rd (<[name := comment]> user_comments)
    translator
  = _build_readme_content username rd user_comments translator ∧
  _build_readme_content username rd (delete name user_comments) translator
  = _build_readme_content username rd user_comments translator.
Proof.
  intros Habsent. unfold _build_readme_content, readme_lines.
  split.
  - rewrite !(build_readme_section_comment_frame _ _ user_comments
                (<[name := comment]> user_comments)); [done|..];
      intros r Hr; apply bullet_line_insert_ne, Habsent; set_solver.
  - rewrite !(build_readme_section_comment_frame _ _ user_comments
                (delete name user_comments)); [done|..];
      intros r Hr; apply bullet_line_delete_ne, Habsent; set_solver.
Qed.

Lemma comment_of_absent_repository_ignored_witness :
  _build_readme_content "octocat" sample_repos_data
    (<["org/zzz" := "unused"]> ∅) key_translator
  = _build_readme_content "octocat" sample_repos_data ∅ key_translator.
Proof.
  destruct (comment_of_absent_repository_ignored "octocat" sample_repos_data ∅
              key_translator "org/zzz" "unused") as [Hinsert _];
    [|exact Hinsert].
  intros r Hr Hname. unfold sample_repos_data in Hr. simpl in Hr.
  repeat (apply elem_of_union in Hr as [Hr|Hr]);
    apply elem_of_singleton in Hr; subst r; discriminate Hname.
Defined.
End document.

(** ** The aggregator and the order of the payload *)

Section aggregator_order.
Implicit Types (entries : list (string * json)) (r : repo_tuple).

Lemma repos_data_eq (rd1 rd2 : repos_data) :
  (∀ r, r ∈ repos_commit_only rd1 ↔ r ∈ repos_commit_only rd2) →
  (∀ r, r ∈ repos_pr_only rd1 ↔ r ∈ repos_pr_only rd2) →
  (∀ r, r ∈ repos_other rd1 ↔ r ∈ repos_other rd2) →
  rd1 = rd2.
Proof.
  destruct rd1 as [c1 p1 o1], rd2 as [c2 p2 o2]. simpl. intros Hc Hp Ho.
  f_equal; by apply set_eq.
Qed.

(** Two payloads with the same qualifying contributions give the same record. *)
Lemma extract_same_contributions (ud1 ud2 : json) (rd1 rd2 : repos_data) :
  _extract_repositories_data ud1 = Ok rd1 →
  _extract_repositories_data ud2 = Ok rd2 →
  (∀ k r, contribution ud1 k r ↔ contribution ud2 k r) →
  rd1 = rd2.
Proof.
  intros (c1 & p1 & a1 & Hws1 & Hco1 & Hpo1 & Hoo1)%extract_repositories_data_Ok.
  intros (c2 & p2 & a2 & Hws2 & Hco2 & Hpo2 & Hoo2)%extract_repositories_data_Ok.
  intros Hsame.
  apply working_sets_Ok in Hws1 as (Hc1 & Hp1 & Ha1).
  apply working_sets_Ok in Hws2 as (Hc2 & Hp2 & Ha2).
  assert (Hc : ∀ r, r ∈ c1 ↔ r ∈ c2) by (intros r; by rewrite Hc1, Hc2, Hsame).
  assert (Hp : ∀ r, r ∈ p1 ↔ r ∈ p2) by (intros r; by rewrite Hp1, Hp2, Hsame).
  assert (Ha : ∀ r, r ∈ a1 ↔ r ∈ a2).
  { intros r. rewrite Ha1, Ha2. by setoid_rewrite Hsame. }
  apply repos_data_eq; intros r.
  - by rewrite Hco1, Hco2, Hc, Hp.
  - by rewrite Hpo1, Hpo2, Hp.
  - by rewrite Hoo1, Hoo2, Ha, Hc, Hp.
Qed.

(** X4: the order of the blocks in the payload does not matter: two
    payloads whose entries are permutations of each other, on both of which
    the aggregator returns, give the same record. *)
Theorem extract_entries_permutation entries1 entries2 (rd1 rd2 : repos_data) :
  entries1 ≡ₚ entries2 →
  _extract_repositories_data (JObj entries1) = Ok rd1 →
  _extract_repositories_data (JObj entries2) = Ok rd2 →
  rd1 = rd2.
Proof.
  intros Hperm H1 H2. apply (extract_same_contributions _ _ _ _ H1 H2).
  intros k r.
  rewrite (contribution_entries (JObj entries1) entries1 k r eq_refl).
  rewrite (contribution_entries (JObj entries2) entries2 k r eq_refl).
  unfold entries_admit. by setoid_rewrite Hperm.
Qed.

Definition swapped_payload : json :=
  JObj [
    ("contributionsCollection2023", JObj [
       ("pullRequestContributionsByRepository", JList [
          contribution_item (repository "org/a" "https://github.com/org/a" false false) ]) ]);
    ("contributionsCollection", JObj [
       ("commitContributionsByRepository", JList [
          contribution_item (repository "org/a" "https://github.com/org/a" false false) ]) ]) ].

Definition swapped_result : repos_data :=
  {| repos_commit_only := ∅;
     repos_pr_only := {[ ("org/a", "https://github.com/org/a") ]};
     repos_other := ∅ |}.

Lemma extract_entries_permutation_witness : swapped_result = swapped_result.
Proof.
  apply (extract_entries_permutation
           [ ("contributionsCollection2023", JObj [
                ("pullRequestContributionsByRepository", JList [
                   contribution_item
                     (repository "org/a" "https://github.com/org/a" false false) ]) ]);
             ("contributionsCollection", JObj [
                ("commitContributionsByRepository", JList [
                   contribution_item
                     (repository "org/a" "https://github.com/org/a" false false) ]) ]) ]
           [ ("contributionsCollection", JObj [
                ("commitContributionsByRepository", JList [
                   contribution_item
                     (repository "org/a" "https://github.com/org/a" false false) ]) ]);
             ("contributionsCollection2023", JObj [
                ("pullRequestContributionsByRepository", JList [
                   contribution_item
                     (repository "org/a" "https://github.com/org/a" false false) ]) ]) ]
           swapped_result swapped_result).
  - apply Permutation_swap.
  - vm_compute; reflexivity.
  - vm_compute; reflexivity.
Defined.

(** An entry the loop of the aggregator works on. *)
Definition processed (entry : string * json) : bool :=
  String.prefix collection_prefix entry.1 && truthy entry.2.

Lemma for_each_process_entry_filter entries
    (st : gset repo_tuple * gset repo_tuple * gset repo_tuple) :
  for_each process_entry (List.filter processed entries) st
  = for_each process_entry entries st.
Proof.
  revert st. induction entries as [|[key cc] entries IH]; intros st; [done|].
  cbn [List.filter]. destruct (processed (key, cc)) eqn:Hproc.
  - cbn [for_each]. destruct (process_entry (key, cc) st); simpl; [apply IH|done].
  - rewrite IH. cbn [for_each]. unfold process_entry.
    unfold processed in Hproc. simpl in Hproc.
    by rewrite <- negb_andb, Hproc.
Qed.

(** X5: entries whose key does not begin with [contributionsCollection], or
    whose value is null or empty, take no part: dropping them from the
    payload changes neither the record nor the exception of the aggregator. *)
Theorem extract_ignores_other_entries entries :
  _extract_repositories_data (JObj (List.filter processed entries))
  = _extract_repositories_data (JObj entries).
Proof.
  unfold _extract_repositories_data, working_sets. simpl.
  by rewrite for_each_process_entry_filter.
Qed.

(** X6: the aggregator takes every alias the query builder emits for a
    block of the response: an entry keyed [contributionsCollection<year>]
    with a non-empty value is processed as a historical block, the entry
    keyed [contributionsCollection] as the current-year block. *)
Theorem process_entry_builder_keys (year : Z) (cc : json)
    (st : gset repo_tuple * gset repo_tuple * gset repo_tuple) :
  truthy cc = true →
  process_entry (year_alias year, cc) st
  = _process_contribution_collection cc st.1.1 st.1.2 st.2 false ∧
  process_entry (collection_prefix, cc) st
  = _process_contribution_collection cc st.1.1 st.1.2 st.2 true.
Proof.
  intros Hcc. unfold process_entry. rewrite Hcc. split.
  - rewrite year_alias_prefix. cbn [negb orb].
    destruct (String.eqb_spec (year_alias year) collection_prefix) as [Heq|_];
      [|done].
    by apply year_alias_not_current in Heq.
  - rewrite String.eqb_refl.
    by replace (String.prefix collection_prefix collection_prefix) with true.
Qed.

Lemma process_entry_builder_keys_witness :
  process_entry (year_alias 2023, JObj [("commitContributionsByRepository", JList [])])
    (∅, ∅, ∅)
  = _process_contribution_collection
      (JObj [("commitContributionsByRepository", JList [])]) ∅ ∅ ∅ false.
Proof.
  destruct (process_entry_builder_keys 2023
              (JObj [("commitContributionsByRepository", JList [])])
              (∅, ∅, ∅)) as [Hyear _]; [reflexivity|exact Hyear].
Defined.
End aggregator_order.

(** ** The two data requests *)

Section requests.
Implicit Types (w : world) (o d : list (string * json)).

(** X7: on a JSON object, the account lookup yields [None] exactly when the
    object has a top-level [errors] key, whatever else it holds; without that
    key it yields the year of a string [data.user.createdAt] that parses, and
    raises in every other case (it never yields [None] then). *)
Theorem get_user_creation_year_spec w (username token : string) o :
  post w (user_info_query username) token = Body (Some (JObj o)) →
  (_get_user_creation_year w username token = Ok None
   ↔ is_Some (alookup "errors" o)) ∧
  (∀ year,
     _get_user_creation_year w username token = Ok (Some year) ↔
     alookup "errors" o = None ∧
     ∃ d user created_at,
       alookup "data" o = Some (JObj d) ∧
       alookup "user" d = Some (JObj user) ∧
       alookup "createdAt" user = Some (JStr created_at) ∧
       iso_year w (str_replace "Z" "+00:00" created_at) = Some year).
Proof.
  intros Hpost. unfold _get_user_creation_year, post_json. rewrite Hpost.
  simpl. destruct (decide (is_Some (alookup "errors" o))) as [He|He].
  - rewrite bool_decide_eq_true_2 by done. split; [done|].
    intros year. split; [done|]. intros [Hnone _]. rewrite Hnone in He.
    by destruct He.
  - rewrite bool_decide_eq_false_2 by done.
    apply eq_None_not_Some in He. split.
    + split; [|intros Hs; rewrite He in Hs; by destruct Hs].
      intros H. exfalso.
      apply bind_Ok in H as (data & _ & H).
      apply bind_Ok in H as (user & _ & H).
      apply bind_Ok in H as (created_at & _ & H).
      apply bind_Ok in H as (s & _ & H).
      by destruct (iso_year w _).
    + intros year. split.
      * intros H.
        apply bind_Ok in H as (data & Hdata & H).
        apply bind_Ok in H as (user & Huser & H).
        apply bind_Ok in H as (created_at & Hcreated & H).
        apply bind_Ok in H as (s & Hs & H).
        destruct created_at; try discriminate Hs. injection Hs as ->.
        destruct (alookup "data" o) as [x|] eqn:Ed; [|discriminate Hdata].
        injection Hdata as ->.
        destruct data as [| | | | |d]; try discriminate Huser. simpl in Huser.
        destruct (alookup "user" d) as [x|] eqn:Eu; [|discriminate Huser].
        injection Huser as ->.
        destruct user as [| | | | |usr]; try discriminate Hcreated.
        simpl in Hcreated.
        destruct (alookup "createdAt" usr) as [x|] eqn:Ec;
          [|discriminate Hcreated].
        injection Hcreated as ->.
        destruct (iso_year w _) as [y|] eqn:Ey; [|discriminate H].
        injection H as ->. split; [done|]. by exists d, usr, s.
      * intros (_ & d & usr & s & Hd & Hu & Hc & Hy).
        rewrite Hd. simpl. rewrite Hu. simpl. rewrite Hc. simpl. by rewrite Hy.
Qed.

Lemma get_user_creation_year_spec_witness :
  _get_user_creation_year
    (sample_world (Body (Some created_payload)) (Body None)) "octocat" "token"
  = Ok (Some 2023%Z).
Proof.
  destruct (get_user_creation_year_spec
              (sample_world (Body (Some created_payload)) (Body None))
              "octocat" "token"
              [("data", JObj [("user",
                   JObj [("createdAt", JStr "2023-05-01T12:00:00Z")])])])
    as [_ Hyear]; [vm_compute; reflexivity|].
  apply Hyear. split; [reflexivity|].
  exists [("user", JObj [("createdAt", JStr "2023-05-01T12:00:00Z")])],
         [("createdAt", JStr "2023-05-01T12:00:00Z")],
         "2023-05-01T12:00:00Z".
  split_and!; vm_compute; reflexivity.
Defined.

(** X8: the contribution fetch posts the query with the username put in;
    on a JSON object it yields [None] exactly when the object has a
    top-level [errors] key or a null [data.user], it yields a present,
    non-null [data.user] of an object without [errors], and raises when
    [data] or [user] is missing. *)
Theorem fetch_contributions_data_spec w (username token query : string) o :
  post w (str_replace "{username}" username query) token
    = Body (Some (JObj o)) →
  (_fetch_contributions_data w username token query = Ok None ↔
   is_Some (alookup "errors" o) ∨
   ∃ d, alookup "data" o = Some (JObj d) ∧ alookup "user" d = Some JNull) ∧
  (∀ user,
     _fetch_contributions_data w username token query = Ok (Some user) ↔
     alookup "errors" o = None ∧ user ≠ JNull ∧
     ∃ d, alookup "data" o = Some (JObj d) ∧ alookup "user" d = Some user).
Proof.
  intros Hpost. unfold _fetch_contributions_data, post_json. rewrite Hpost.
  simpl. destruct (decide (is_Some (alookup "errors" o))) as [He|He].
  - rewrite bool_decide_eq_true_2 by done. split; [by split; [left|]|].
    intros user. split; [done|]. intros [Hnone _]. rewrite Hnone in He.
    by destruct He.
  - rewrite bool_decide_eq_false_2 by done.
    apply eq_None_not_Some in He.
    assert (Hrun : ∀ res,
      (d ← py_getitem (JObj o) "data"; user ← py_getitem d "user";
       Ok (if is_none user then None else Some user)) = Ok res ↔
      ∃ d user, alookup "data" o = Some (JObj d) ∧ alookup "user" d = Some user ∧
                res = if is_none user then None else Some user).
    { intros res. split.
      - intros H. apply bind_Ok in H as (data & Hdata & H).
        apply bind_Ok in H as (user & Huser & H). injection H as <-.
        simpl in Hdata.
        destruct (alookup "data" o) as [x|] eqn:Ed; [|discriminate Hdata].
        injection Hdata as ->.
        destruct data as [| | | | |d]; try discriminate Huser. simpl in Huser.
        destruct (alookup "user" d) as [x|] eqn:Eu; [|discriminate Huser].
        injection Huser as ->. by exists d, user.
      - intros (d & user & Hd & Hu & ->). simpl. rewrite Hd. simpl.
        by rewrite Hu. }
    split.
    + rewrite Hrun. split.
      * intros (d & user & Hd & Hu & Hres). right. exists d. split; [done|].
        by destruct user.
      * intros [Hs|(d & Hd & Hu)]; [rewrite He in Hs; by destruct Hs|].
        by exists d, JNull.
    + intros user. rewrite Hrun. split.
      * intros (d & user' & Hd & Hu & Hres).
        destruct user'; simplify_eq/=; split_and!; try done; by exists d.
      * intros (_ & Hnn & d & Hd & Hu). exists d, user. split_and!; [done..|].
        by destruct user.
Qed.

Lemma fetch_contributions_data_spec_witness :
  _fetch_contributions_data
    (sample_world (Body None)
       (Body (Some (JObj [("data", JObj [("user", JNull)])]))))
    "octocat" "token" "query { {username} }" = Ok None.
Proof.
  destruct (fetch_contributions_data_spec
              (sample_world (Body None)
                 (Body (Some (JObj [("data", JObj [("user", JNull)])]))))
              "octocat" "token" "query { {username} }"
              [("data", JObj [("user", JNull)])])
    as [Hnone _]; [vm_compute; reflexivity|].
  apply Hnone. right. exists [("user", JNull)]. split; reflexivity.
Defined.
End requests.

(** ** base64, for the stored token *)

Module base64.

Definition alphabet : string :=
  "ABCDEFGHIJKLMNOPQRSTUVWXYZabcdefghijklmnopqrstuvwxyz0123456789+/".

(** Six bits, most significant first. *)
Definition sextet : Type := bool * bool * bool * bool * bool * bool.

Definition sextet_index (x : sextet) : nat :=
  let '(b5, b4, b3, b2, b1, b0) := x in
  32 * Nat.b2n b5 + 16 * Nat.b2n b4 + 8 * Nat.b2n b3 + 4 * Nat.b2n b2
  + 2 * Nat.b2n b1 + Nat.b2n b0.

Definition sextet_char (x : sextet) : ascii :=
  from_option id "A"%char (String.get (sextet_index x) alphabet).

Definition index_sextet (n : nat) : sextet :=
  (Nat.testbit n 5, Nat.testbit n 4, Nat.testbit n 3, Nat.testbit n 2,
   Nat.testbit n 1, Nat.testbit n 0).

Definition char_sextet (c : ascii) : option sextet :=
  index_sextet <$> String.index 0 (String c EmptyString) alphabet.

Definition pad : ascii := "="%char.

(** Three bytes give four characters. *)
Definition encode3 (a b c : ascii) : string :=
  let '(Ascii a0 a1 a2 a3 a4 a5 a6 a7) := a in
  let '(Ascii b0 b1 b2 b3 b4 b5 b6 b7) := b in
  let '(Ascii c0 c1 c2 c3 c4 c5 c6 c7) := c in
  String (sextet_char (a7, a6, a5, a4, a3, a2))
    (String (sextet_char (a1, a0, b7, b6, b5, b4))
       (String (sextet_char (b3, b2, b1, b0, c7, c6))
          (String (sextet_char (c5, c4, c3, c2, c1, c0)) EmptyString))).

Definition encode2 (a b : ascii) : string :=
  let '(Ascii a0 a1 a2 a3 a4 a5 a6 a7) := a in
  let '(Ascii b0 b1 b2 b3 b4 b5 b6 b7) := b in
  String (sextet_char (a7, a6, a5, a4, a3, a2))
    (String (sextet_char (a1, a0, b7, b6, b5, b4))
       (String (sextet_char (b3, b2, b1, b0, false, false))
          (String pad EmptyString))).

Definition encode1 (a : ascii) : string :=
  let '(Ascii a0 a1 a2 a3 a4 a5 a6 a7) := a in
  String (sextet_char (a7, a6, a5, a4, a3, a2))
    (String (sextet_char (a1, a0, false, false, false, false))
       (String pad (String pad EmptyString))).

(** [base64.b64encode] on the bytes of a string. *)
Fixpoint b64encode (s : string) : string :=
  match s with
  | EmptyString => EmptyString
  | String a EmptyString => encode1 a
  | String a (String b EmptyString) => encode2 a b
  | String a (String b (String c rest)) => encode3 a b c +:+ b64encode rest
  end.

Definition decode3 (w x y z : ascii) : result string :=
  match char_sextet w, char_sextet x, char_sextet y, char_sextet z with
  | Some (a7, a6, a5, a4, a3, a2), Some (a1, a0, b7, b6, b5, b4),
    Some (b3, b2, b1, b0, c7, c6), Some (c5, c4, c3, c2, c1, c0) =>
      Ok (String (Ascii a0 a1 a2 a3 a4 a5 a6 a7)
            (String (Ascii b0 b1 b2 b3 b4 b5 b6 b7)
               (String (Ascii c0 c1 c2 c3 c4 c5 c6 c7) EmptyString)))
  | _, _, _, _ => Raise ValueError
  end.

Definition decode2 (w x y : ascii) : result string :=
  match char_sextet w, char_sextet x, char_sextet y with
  | Some (a7, a6, a5, a4, a3, a2), Some (a1, a0, b7, b6, b5, b4),
    Some (b3, b2, b1, b0, _, _) =>
      Ok (String (Ascii a0 a1 a2 a3 a4 a5 a6 a7)
            (String (Ascii b0 b1 b2 b3 b4 b5 b6 b7) EmptyString))
  | _, _, _ => Raise ValueError
  end.

Definition decode1 (w x : ascii) : result string :=
  match char_sextet w, char_sextet x with
  | Some (a7, a6, a5, a4, a3, a2), Some (a1, a0, _, _, _, _) =>
      Ok (String (Ascii a0 a1 a2 a3 a4 a5 a6 a7) EmptyString)
  | _, _ => Raise ValueError
  end.

Definition decode_last (w x y z : ascii) : result string :=
  if Ascii.eqb z pad
  then if Ascii.eqb y pad then decode1 w x else decode2 w x y
  else decode3 w x y z.

(** A strict decoder for padded base64 text in groups of four characters.
    It is not Python's [base64.b64decode]: that one also discards
    characters outside the alphabet, and the [.decode()] after it rejects
    bytes that are not UTF-8. It serves as an instance of a decoder that
    gives back what the encoder produced. *)
Fixpoint b64decode_strict (s : string) : result string :=
  match s with
  | EmptyString => Ok EmptyString
  | String w (String x (String y (String z rest))) =>
      match rest with
      | EmptyString => decode_last w x y z
      | _ =>
          group ← decode3 w x y z;
          tail ← b64decode_strict rest;
          Ok (group +:+ tail)
      end
  | _ => Raise ValueError
  end.

End base64.

Section base64_round_trip.
Import base64.

Lemma char_sextet_char (x : sextet) : char_sextet (sextet_char x) = Some x.
Proof.
  destruct x as [[[[[b5 b4] b3] b2] b1] b0].
  destruct b5, b4, b3, b2, b1, b0; vm_compute; reflexivity.
Qed.

Lemma sextet_char_not_pad (x : sextet) : Ascii.eqb (sextet_char x) pad = false.
Proof.
  destruct x as [[[[[b5 b4] b3] b2] b1] b0].
  destruct b5, b4, b3, b2, b1, b0; vm_compute; reflexivity.
Qed.

Lemma decode3_encode3 (a b c : ascii) :
  ∃ w x y z,
    encode3 a b c = String w (String x (String y (String z EmptyString))) ∧
    decode3 w x y z = Ok (String a (String b (String c EmptyString))) ∧
    Ascii.eqb z pad = false.
Proof.
  destruct a as [a0 a1 a2 a3 a4 a5 a6 a7], b as [b0 b1 b2 b3 b4 b5 b6 b7],
           c as [c0 c1 c2 c3 c4 c5 c6 c7].
  do 4 eexists. split; [reflexivity|]. split; [|apply sextet_char_not_pad].
  unfold decode3. by rewrite !char_sextet_char.
Qed.

Lemma b64encode_cons (a : ascii) (s : string) :
  ∃ c t, b64encode (String a s) = String c t.
Proof.
  destruct a as [a0 a1 a2 a3 a4 a5 a6 a7].
  destruct s as [|[b0 b1 b2 b3 b4 b5 b6 b7] [|[c0 c1 c2 c3 c4 c5 c6 c7] s]];
    by eexists _, _.
Qed.

Lemma b64encode_empty (s : string) : b64encode s = EmptyString → s = EmptyString.
Proof.
  destruct s as [|a s]; [done|].
  destruct (b64encode_cons a s) as (c & t & ->). done.
Qed.

Lemma b64decode_group (w x y z : ascii) (rest : string) :
  rest ≠ EmptyString →
  b64decode_strict (String w (String x (String y (String z rest))))
  = group ← decode3 w x y z; tail ← b64decode_strict rest; Ok (group +:+ tail).
Proof. by destruct rest. Qed.

Lemma b64decode_b64encode_bounded (n : nat) (s : string) :
  String.length s < n → b64decode_strict (b64encode s) = Ok s.
Proof.
  revert s. induction n as [|n IH]; intros s Hlen; [lia|].
  destruct s as [|a [|b [|c rest]]].
  - done.
  - destruct a as [a0 a1 a2 a3 a4 a5 a6 a7]. simpl.
    unfold decode_last.
    rewrite Ascii.eqb_refl. unfold decode1. by rewrite !char_sextet_char.
  - destruct a as [a0 a1 a2 a3 a4 a5 a6 a7], b as [b0 b1 b2 b3 b4 b5 b6 b7].
    simpl. unfold decode_last. rewrite Ascii.eqb_refl, sextet_char_not_pad.
    unfold decode2. by rewrite !char_sextet_char.
  - change (b64encode (String a (String b (String c rest))))
      with (encode3 a b c +:+ b64encode rest).
    destruct (decode3_encode3 a b c) as (w & x & y & z & -> & Hdec & Hpad).
    change (String w (String x (String y (String z EmptyString)))
            +:+ b64encode rest)
      with (String w (String x (String y (String z (b64encode rest))))).
    simpl in Hlen. destruct rest as [|d rest].
    + simpl. unfold decode_last. by rewrite Hpad.
    + rewrite b64decode_group.
      * rewrite Hdec. cbn [mbind result_bind].
        rewrite IH by (simpl in *; lia). done.
      * destruct (b64encode_cons d rest) as (e & t & ->). done.
Qed.

(** The decoder gives back what the encoder was given. *)
Lemma b64decode_b64encode (s : string) : b64decode_strict (b64encode s) = Ok s.
Proof. apply (b64decode_b64encode_bounded (S (String.length s))). lia. Qed.

Lemma b64_examples :
  b64encode "token" = "dG9rZW4=" ∧ b64encode "ab" = "YWI=" ∧
  b64encode "abc" = "YWJj" ∧ b64encode "a" = "YQ==" ∧
  b64decode_strict "dG9rZW4=" = Ok "token".
Proof. split_and!; vm_compute; reflexivity. Qed.
End base64_round_trip.

(** ** config_manager.py: reading the configuration *)

(** The tuple [load_config] returns. *)
Record loaded_config : Type := {
  cfg_username : json;
  cfg_username_history : json;
  cfg_token : string;
  cfg_theme : json;
  cfg_language : json;
  cfg_user_configs : json
}.

Definition default_config : loaded_config :=
  {| cfg_username := JStr EmptyString;
     cfg_username_history := JList [];
     cfg_token := EmptyString;
     cfg_theme := JStr "light";
     cfg_language := JStr "en";
     cfg_user_configs := JObj [] |}.

(** [b64decode] is [base64.b64decode(token_enc.encode()).decode()]; what it
    raises is not caught by [load_config]. *)
Definition load_config (b64decode : string → result string)
    (file : config_file) : result loaded_config :=
  match file with
  | Absent | Unreadable => Ok default_config
  | Contents data =>
      username ← py_get data "username" (JStr EmptyString);
      username_history ← py_get data "username_history" (JList []);
      token_enc ← py_get data "token" (JStr EmptyString);
      theme ← py_get data "theme" (JStr "light");
      language ← py_get data "language" (JStr "en");
      user_configs ← py_get data "user_configs" (JObj []);
      token ←
        (if truthy token_enc then s ← as_str token_enc; b64decode s
         else Ok EmptyString);
      Ok {| cfg_username := username;
            cfg_username_history := username_history;
            cfg_token := token;
            cfg_theme := theme;
            cfg_language := language;
            cfg_user_configs := user_configs |}
  end.

Definition get_user_comments (username : string) (user_configs : json)
  : result json :=
  entry ← py_get user_configs username (JObj []);
  py_get entry "comments" (JObj []).

Section config_round_trip.
Implicit Types (o : list (string * json)) (u v k : string).

Lemma aset_aset k (x y : json) o : aset k x (aset k y o) = aset k x o.
Proof.
  induction o as [|[k' z] o IH]; simpl.
  - by rewrite String.eqb_refl.
  - destruct (String.eqb_spec k k') as [->|Hne]; simpl.
    + by rewrite String.eqb_refl.
    + destruct (String.eqb_spec k k'); [done|]. by rewrite IH.
Qed.

(** The history [update_history] writes starts with the username and keeps
    at most nine more entries. *)
Lemma update_history_Ok (existing_data : json) u (username_history : json) :
  update_history existing_data u = Ok username_history →
  ∃ l, username_history = JList (JStr u :: take 9 l).
Proof.
  unfold update_history. intros H.
  apply bind_Ok in H as (h0 & _ & H).
  apply bind_Ok in H as (present & _ & H).
  apply bind_Ok in H as (h1 & _ & H).
  apply bind_Ok in H as (h2 & Hins & H).
  destruct h1 as [| | | |l|]; try discriminate Hins. injection Hins as <-.
  injection H as <-. by exists l.
Qed.

Lemma update_history_again (data : json) u (l : list json) :
  py_get data "username_history" (JList []) = Ok (JList (JStr u :: take 9 l)) →
  update_history data u = Ok (JList (JStr u :: take 9 l)).
Proof.
  intros Hget. unfold update_history. rewrite Hget. simpl.
  rewrite String.eqb_refl. simpl. by rewrite take_take.
Qed.

(** X9: with no configuration file, or one whose read raises an error that
    [save_config] catches (OSError, JSONDecodeError), the record handed to
    [json.dump] is a fresh one: the username alone in the history, the given
    language or ["en"], and no user entry but the one for the given
    comments. *)
Theorem save_config_fresh (b64 : string → string) (file : config_file)
    (username token theme : string) (user_comments : option json)
    (language : option string) :
  file = Absent ∨ file = Unreadable →
  save_config b64 file username token theme user_comments language
  = Ok (JObj [ ("username", JStr username);
               ("username_history", JList [JStr username]);
               ("token", JStr (b64 token));
               ("theme", JStr theme);
               ("language", JStr (from_option id "en" language));
               ("user_configs",
                JObj match user_comments with
                     | Some comments =>
                         [(username, JObj [("comments", comments)])]
                     | None => []
                     end) ]).
Proof.
  intros Hfile.
  assert (load_existing file = JObj []) as Hload by (by destruct Hfile as [->| ->]).
  unfold save_config. rewrite Hload.
  unfold update_history, update_user_configs. simpl.
  destruct user_comments as [comments|]; simpl.
  - rewrite !String.eqb_refl. simpl. by destruct language.
  - by destruct language.
Qed.

Lemma save_config_fresh_witness :
  save_config base64.b64encode Absent "octocat" "token" "dark" None None
  = Ok (JObj [ ("username", JStr "octocat");
               ("username_history", JList [JStr "octocat"]);
               ("token", JStr "dG9rZW4=");
               ("theme", JStr "dark");
               ("language", JStr "en");
               ("user_configs", JObj []) ]).
Proof.
  apply (save_config_fresh base64.b64encode Absent "octocat" "token" "dark"
           None None).
  by left.
Defined.

(** X10: saving is idempotent: saving the same arguments again over the
    record just written writes the same record. *)
Theorem save_config_idempotent (b64 : string → string) (file : config_file)
    (username token theme : string) (user_comments : option json)
    (language : option string) (data : json) :
  save_config b64 file username token theme user_comments language = Ok data →
  save_config b64 (Contents data) username token theme user_comments language
  = Ok data.
Proof.
  intros (uh & uc & lang & Huh & Huc & Hlang & ->)%save_config_Ok.
  apply update_history_Ok in Huh as [l ->].
  unfold save_config. cbn [load_existing].
  rewrite (update_history_again _ username l) by done.
  cbn [mbind result_bind].
  assert (update_user_configs
            (JObj [ ("username", JStr username);
                    ("username_history", JList (JStr username :: take 9 l));
                    ("token", JStr (b64 token));
                    ("theme", JStr theme);
                    ("language", lang);
                    ("user_configs", uc) ]) username user_comments = Ok uc)
    as ->.
  { destruct user_comments as [comments|]; [|done].
    apply update_user_configs_Some in Huc as (o & ucs & e & _ & _ & _ & ->).
    unfold update_user_configs. simpl.
    rewrite alookup_aset_eq. simpl. rewrite alookup_aset_eq. simpl.
    by rewrite !aset_aset. }
  cbn [mbind result_bind]. destruct language as [l'|]; simpl.
  - by injection Hlang as <-.
  - done.
Qed.

Lemma save_config_idempotent_witness :
  save_config base64.b64encode
    (Contents (JObj [ ("username", JStr "octocat");
                      ("username_history", JList [JStr "octocat"]);
                      ("token", JStr "dG9rZW4=");
                      ("theme", JStr "dark");
                      ("language", JStr "en");
                      ("user_configs", JObj []) ]))
    "octocat" "token" "dark" None None
  = Ok (JObj [ ("username", JStr "octocat");
               ("username_history", JList [JStr "octocat"]);
               ("token", JStr "dG9rZW4=");
               ("theme", JStr "dark");
               ("language", JStr "en");
               ("user_configs", JObj []) ]).
Proof.
  apply (save_config_idempotent base64.b64encode Absent "octocat" "token"
           "dark" None None).
  vm_compute; reflexivity.
Defined.

(** X11: what [save_config] writes, [load_config] reads back: for a
    decoder that inverts the encoder, loading the written record returns the
    saved username, token and theme, the written history, language and
    user configurations, and raises nothing. *)
Theorem load_config_after_save (b64encode : string → string)
    (b64decode : string → result string) (file : config_file)
    (username token theme : string) (user_comments : option json)
    (language : option string) (data : json) :
  (∀ t, b64decode (b64encode t) = Ok t) →
  (∀ t, b64encode t = EmptyString → t = EmptyString) →
  save_config b64encode file username token theme user_comments language
    = Ok data →
  ∃ username_history lang user_configs,
    update_history (load_existing file) username = Ok username_history ∧
    update_user_configs (load_existing file) username user_comments
      = Ok user_configs ∧
    match language with
    | Some l => Ok (JStr l)
    | None => py_get (load_existing file) "language" (JStr "en")
    end = Ok lang ∧
    load_config b64decode (Contents data)
    = Ok {| cfg_username := JStr username;
            cfg_username_history := username_history;
            cfg_token := token;
            cfg_theme := JStr theme;
            cfg_language := lang;
            cfg_user_configs := user_configs |}.
Proof.
  intros Hround Hempty (uh & uc & lang & Huh & Huc & Hlang & ->)%save_config_Ok.
  exists uh, lang, uc. split_and!; [done..|].
  unfold load_config. simpl.
  destruct (String.eqb_spec (b64encode token) EmptyString) as [He|Hne]; simpl.
  - by rewrite (Hempty token He).
  - by rewrite Hround.
Qed.


Lemma load_config_after_save_witness :
  ∃ username_history lang user_configs,
    update_history (load_existing (Contents sample_config)) "bob"
      = Ok username_history ∧
    update_user_configs (load_existing (Contents sample_config)) "bob" None
      = Ok user_configs ∧
    py_get (load_existing (Contents sample_config)) "language" (JStr "en")
      = Ok lang ∧
    load_config base64.b64decode_strict
      (Contents (JObj [ ("username", JStr "bob");
                        ("username_history",
                         JList [JStr "bob"; JStr "alice"; JStr "carol"]);
                        ("token", JStr "dG9rZW4=");
                        ("theme", JStr "dark");
                        ("language", JStr "fr");
                        ("user_configs", JObj [
                           ("alice", JObj [("comments",
                                            JObj [("org/a", JStr "old")])]);
                           ("bob", JObj [("comments",
                                          JObj [("org/b", JStr "mine")])]) ]) ]))
    = Ok {| cfg_username := JStr "bob";
            cfg_username_history := username_history;
            cfg_token := "token";
            cfg_theme := JStr "dark";
            cfg_language := lang;
            cfg_user_configs := user_configs |}.
Proof.
  apply (load_config_after_save base64.b64encode base64.b64decode_strict
           (Contents sample_config) "bob" "token" "dark" None None).
  - apply b64decode_b64encode.
  - apply b64encode_empty.
  - vm_compute; reflexivity.
Defined.

(** X12: the comments saved for a user are the comments read for that user
    from the written user configurations, and the comments read for any
    other user are those read from the stored ones. *)
Theorem get_user_comments_after_save (b64 : string → string)
    (file : config_file) (username token theme : string) (comments : json)
    (language : option string) (data : json) :
  save_config b64 file username token theme (Some comments) language
    = Ok data →
  ∃ o stored written,
    load_existing file = JObj o ∧
    py_get (JObj o) "user_configs" (JObj []) = Ok stored ∧
    py_get data "user_configs" (JObj []) = Ok written ∧
    get_user_comments username written = Ok comments ∧
    (∀ v, v ≠ username →
          get_user_comments v written = get_user_comments v stored).
Proof.
  intros (uh & uc & lang & _ & Huc & _ & ->)%save_config_Ok.
  apply update_user_configs_Some in Huc as (o & ucs & e & Ho & Hucs & He & ->).
  exists o, (JObj ucs), (JObj (aset username (JObj (aset "comments" comments e))
                                 (aset username (JObj e) ucs))).
  split_and!.
  - done.
  - simpl. by rewrite Hucs.
  - done.
  - unfold get_user_comments. simpl. rewrite alookup_aset_eq. simpl.
    by rewrite alookup_aset_eq.
  - intros v Hv. unfold get_user_comments. simpl.
    by rewrite !alookup_aset_ne.
Qed.

Lemma get_user_comments_after_save_witness :
  ∃ o stored written,
    load_existing (Contents sample_config) = JObj o ∧
    py_get (JObj o) "user_configs" (JObj []) = Ok stored ∧
    py_get
      (JObj [ ("username", JStr "alice");
              ("username_history",
               JList [JStr "alice"; JStr "bob"; JStr "carol"]);
              ("token", JStr "token");
              ("theme", JStr "light");
              ("language", JStr "fr");
              ("user_configs", JObj [
                 ("alice", JObj [("comments", new_comments)]);
                 ("bob", JObj [("comments",
                                JObj [("org/b", JStr "mine")])]) ]) ])
      "user_configs" (JObj []) = Ok written ∧
    get_user_comments "alice" written = Ok new_comments ∧
    (∀ v, v ≠ "alice" →
          get_user_comments v written = get_user_comments v stored).
Proof.
  apply (get_user_comments_after_save (λ s, s) (Contents sample_config)
           "alice" "token" "light" new_comments None).
  vm_compute; reflexivity.
Defined.
(** X13: a configuration file that holds JSON other than an object is not
    treated as unreadable: [load_config] and [save_config] both raise
    AttributeError on it instead of falling back to the defaults. *)
Theorem config_not_an_object_raises (b64 : string → string)
    (b64decode : string → result string) (data : json)
    (username token theme : string) (user_comments : option json)
    (language : option string) :
  (∀ o, data ≠ JObj o) →
  load_config b64decode (Contents data) = Raise AttributeError ∧
  save_config b64 (Contents data) username token theme user_comments language
  = Raise AttributeError.
Proof.
  intros Hdata. destruct data as [| | | | |o]; try done. by destruct (Hdata o).
Qed.

Lemma config_not_an_object_raises_witness :
  load_config base64.b64decode_strict (Contents (JList [])) = Raise AttributeError ∧
  save_config base64.b64encode (Contents (JList [])) "octocat" "token" "dark"
    None None = Raise AttributeError.
Proof.
  apply (config_not_an_object_raises base64.b64encode base64.b64decode_strict
           (JList []) "octocat" "token" "dark" None None).
  intros o Ho. discriminate Ho.
Defined.
End config_round_trip.

(** ** translation_manager.py *)

Module translation_manager.

(** [s.split(sep)] for a separator of one character. *)
Fixpoint str_split (sep : ascii) (s : string) : list string :=
  match s with
  | EmptyString => [EmptyString]
  | String c s' =>
      if Ascii.eqb c sep then EmptyString :: str_split sep s'
      else
        match str_split sep s' with
        | word :: words => String c word :: words
        | [] => [String c EmptyString]
        end
  end.

Definition available_languages : list (string * string) :=
  [ ("en", "English"); ("fr", "Français"); ("es", "Español") ].

Record TranslationManager : Type := {
  current_language : string;
  translations : gmap string json
}.

(** The table of one language: the file's JSON, or [{}] when the file is
    missing or cannot be loaded. *)
Definition load_table (file : config_file) : json :=
  match file with
  | Contents data => data
  | Absent | Unreadable => JObj []
  end.

(** [__init__]: English is current, and every available language gets a
    table. [files] gives the state of [translations/<code>.json]; the
    creation of the directory is not modelled. *)
Definition init (files : string → config_file) : TranslationManager :=
  {| current_language := "en";
     translations :=
       list_to_map ((λ lang, (lang.1, load_table (files lang.1)))
                      <$> available_languages) |}.

Definition set_language (tm : TranslationManager) (language_code : string)
  : TranslationManager :=
  if bool_decide (language_code ∈ available_languages.*1)
  then {| current_language := language_code; translations := translations tm |}
  else tm.

(** The result is [JNull] for Python's [None]. *)
Fixpoint _navigate_translation_keys (current : json) (keys : list string)
  : json :=
  match keys with
  | [] => current
  | key :: keys' =>
      match current with
      | JObj o =>
          match alookup key o with
          | Some v => _navigate_translation_keys v keys'
          | None => JNull
          end
      | _ => JNull
      end
  end.

Definition _get_fallback_translation (tm : TranslationManager)
    (keys : list string) : json :=
  let fallback_dict := from_option id (JObj []) (translations tm !! "en") in
  _navigate_translation_keys fallback_dict keys.

(** [get_text(key)], the call without keyword arguments: then
    [_format_translation] returns the translation as it is. *)
Definition get_text (tm : TranslationManager) (key : string) : string :=
  let keys := str_split "."%char key in
  let current_lang_dict :=
    from_option id (JObj []) (translations tm !! current_language tm) in
  let translation := _navigate_translation_keys current_lang_dict keys in
  let translation :=
    if is_none translation then _get_fallback_translation tm keys
    else translation in
  if is_none translation then key
  else match translation with JStr s => s | _ => key end.

(** What a language's table holds at a dotted key. *)
Definition resolve (tm : TranslationManager) (language_code key : string)
  : json :=
  _navigate_translation_keys
    (from_option id (JObj []) (translations tm !! language_code))
    (str_split "."%char key).

Definition translator_of (tm : TranslationManager) : Translator :=
  {| github_api.get_text := get_text tm |}.

End translation_manager.

Section translations.
Import translation_manager.
Implicit Types (tm : TranslationManager) (key : string) (keys : list string).

Lemma str_split_nonempty (sep : ascii) (s : string) : str_split sep s ≠ [].
Proof.
  destruct s as [|c s]; simpl; [done|].
  destruct (Ascii.eqb c sep); [done|]. by destruct (str_split sep s).
Qed.

Lemma navigate_missing keys : keys ≠ [] →
  _navigate_translation_keys (JObj []) keys = JNull.
Proof. by destruct keys. Qed.

Lemma navigate_null keys : _navigate_translation_keys JNull keys = JNull.
Proof. by destruct keys. Qed.

Lemma navigate_app (current : json) keys1 keys2 :
  _navigate_translation_keys current (keys1 ++ keys2)
  = _navigate_translation_keys (_navigate_translation_keys current keys1) keys2.
Proof.
  revert current. induction keys1 as [|key keys1 IH]; intros current; [done|].
  simpl. destruct current as [| | | | |o]; try by rewrite navigate_null.
  destruct (alookup key o); [apply IH|by rewrite navigate_null].
Qed.

Lemma str_split_app (sep : ascii) (a b : string) :
  str_split sep (a +:+ String sep b) = str_split sep a ++ str_split sep b.
Proof.
  induction a as [|c a IH].
  - change (EmptyString +:+ String sep b) with (String sep b). simpl.
    by rewrite Ascii.eqb_refl.
  - change (String c a +:+ String sep b) with (String c (a +:+ String sep b)).
    simpl. rewrite IH. destruct (Ascii.eqb c sep); [done|].
    pose proof (str_split_nonempty sep a) as Hne.
    by destruct (str_split sep a).
Qed.

(** X14: a dotted key is looked up step by step: navigating along the
    parts of [a.b] is navigating along the parts of [a] and then, from the
    value found, along the parts of [b]. *)
Theorem navigate_dotted (current : json) (a b : string) :
  _navigate_translation_keys current
    (str_split "."%char (a +:+ String "."%char b))
  = _navigate_translation_keys
      (_navigate_translation_keys current (str_split "."%char a))
      (str_split "."%char b).
Proof. by rewrite str_split_app, navigate_app. Qed.

Lemma get_text_resolve tm key :
  get_text tm key
  = match resolve tm (current_language tm) key with
    | JStr s => s
    | JNull => match resolve tm "en" key with JStr s => s | _ => key end
    | _ => key
    end.
Proof.
  unfold get_text, resolve, _get_fallback_translation.
  generalize (_navigate_translation_keys
                (from_option id (JObj []) (translations tm !! "en"))
                (str_split "."%char key)).
  generalize (_navigate_translation_keys
                (from_option id (JObj [])
                   (translations tm !! current_language tm))
                (str_split "."%char key)).
  intros cur en. destruct cur; simpl; try done. by destruct en.
Qed.

(** X15: the text of the current language wins; English is used only
    where the current table holds nothing (or null) at the key; so when the
    English table holds a string at the key and the current table holds a
    string or nothing there, the result is one of these two strings, never
    the raw key by default. *)
Theorem get_text_fallback tm key (english : string) :
  resolve tm "en" key = JStr english →
  (∀ s, resolve tm (current_language tm) key = JStr s → get_text tm key = s) ∧
  (resolve tm (current_language tm) key = JNull → get_text tm key = english) ∧
  (∀ v, resolve tm (current_language tm) key = v →
        v ≠ JNull → (∀ s, v ≠ JStr s) → get_text tm key = key).
Proof.
  intros Hen. rewrite get_text_resolve, Hen. split_and!.
  - by intros s ->.
  - by intros ->.
  - intros v -> Hnull Hstr. destruct v; try done. by destruct (Hstr s).
Qed.

(** X16: with no translation file that loads, every text is its key, in
    whatever language is selected. *)
Theorem get_text_without_files (files : string → config_file)
    (language_code key : string) :
  (∀ path, files path = Absent ∨ files path = Unreadable) →
  get_text (set_language (init files) language_code) key = key.
Proof.
  intros Hfiles. rewrite get_text_resolve.
  assert (Htable : ∀ lang,
    resolve (set_language (init files) language_code) lang key = JNull).
  { intros lang. unfold resolve.
    assert (translations (set_language (init files) language_code)
            = translations (init files)) as ->.
    { unfold set_language. by case_bool_decide. }
    assert (from_option id (JObj []) (translations (init files) !! lang)
            = JObj []) as ->; [|apply navigate_missing, str_split_nonempty].
    unfold init. simpl.
    assert (∀ code, load_table (files code) = JObj []) as Hload.
    { intros code. by destruct (Hfiles code) as [-> | ->]. }
    rewrite !Hload.
    destruct (decide (lang = "en")) as [->|Hen];
      [by rewrite lookup_insert_eq|rewrite lookup_insert_ne by done].
    destruct (decide (lang = "fr")) as [->|Hfr];
      [by rewrite lookup_insert_eq|rewrite lookup_insert_ne by done].
    destruct (decide (lang = "es")) as [->|Hes];
      [by rewrite lookup_insert_eq|rewrite lookup_insert_ne by done].
    by rewrite lookup_empty. }
  by rewrite !Htable.
Qed.

Lemma get_text_without_files_witness :
  get_text (set_language (init (λ _, Absent)) "fr") "categories.commit_only"
  = "categories.commit_only".
Proof.
  apply (get_text_without_files (λ _, Absent) "fr" "categories.commit_only").
  intros path. by left.
Defined.

Definition english_table : json :=
  JObj [ ("categories", JObj [ ("profile_git", JStr "GitHub profile");
                               ("commit_only", JStr "Commits") ]) ].
Definition french_table : json :=
  JObj [ ("categories", JObj [ ("profile_git", JStr "Profil GitHub") ]) ].

Definition sample_files (code : string) : config_file :=
  if String.eqb code "en" then Contents english_table
  else if String.eqb code "fr" then Contents french_table
  else Absent.

Lemma get_text_fallback_witness :
  get_text (set_language (init sample_files) "fr") "categories.commit_only"
  = "Commits".
Proof.
  destruct (get_text_fallback (set_language (init sample_files) "fr")
              "categories.commit_only" "Commits") as (_ & Hmissing & _).
  - vm_compute; reflexivity.
  - apply Hmissing. vm_compute; reflexivity.
Defined.

Lemma get_text_examples :
  get_text (set_language (init sample_files) "fr") "categories.profile_git"
    = "Profil GitHub" ∧
  get_text (set_language (init sample_files) "de") "categories.profile_git"
    = "GitHub profile" ∧
  get_text (init sample_files) "categories" = "categories" ∧
  get_text (init sample_files) "categories.missing" = "categories.missing" ∧
  str_split "."%char "a..b" = ["a"; EmptyString; "b"].
Proof. split_and!; vm_compute; reflexivity. Qed.
End translations.

(** ** The username in the query *)

Section username_substitution.
Implicit Types (s a b : string) (c : ascii).

Definition placeholder : string := "{username}".
Definition open_brace : ascii := Ascii.ascii_of_nat 123.
Definition letter_u : ascii := Ascii.ascii_of_nat 117.

(** The query up to the placeholder, and from the placeholder to the blocks. *)
Definition login_open : string :=
  "
    {
        user(login: " +:+ dquote.
Definition login_close : string :=
  dquote +:+ ") {
            ".

Definition starts_u s : bool :=
  match s with String c _ => Ascii.eqb c letter_u | EmptyString => false end.

(** Somewhere in the text an opening brace is followed by the letter u. *)
Fixpoint brace_u s : bool :=
  match s with
  | EmptyString => false
  | String c s' => (Ascii.eqb c open_brace && starts_u s') || brace_u s'
  end.

Fixpoint ends_brace s : bool :=
  match s with
  | EmptyString => false
  | String c s' =>
      match s' with
      | EmptyString => Ascii.eqb c open_brace
      | String _ _ => ends_brace s'
      end
  end.

Fixpoint no_brace s : bool :=
  match s with
  | EmptyString => true
  | String c s' => negb (Ascii.eqb c open_brace) && no_brace s'
  end.

(** The placeholder can neither occur in the text nor begin at its end. *)
Definition safe s : Prop := brace_u s = false ∧ ends_brace s = false.

Lemma append_cons c a b : String c a +:+ b = String c (a +:+ b).
Proof. done. Qed.

Lemma ends_brace_app a b :
  ends_brace (a +:+ b)
  = match b with EmptyString => ends_brace a | String _ _ => ends_brace b end.
Proof.
  induction a as [|c a IH].
  - change (EmptyString +:+ b) with b. by destruct b.
  - rewrite append_cons. destruct a as [|d a].
    + change (EmptyString +:+ b) with b. by destruct b.
    + rewrite append_cons in *.
      change (ends_brace (String c (String d (a +:+ b))))
        with (ends_brace (String d (a +:+ b))).
      rewrite IH. by destruct b.
Qed.

Lemma starts_u_app a b :
  starts_u (a +:+ b)
  = match a with EmptyString => starts_u b | String _ _ => starts_u a end.
Proof. by destruct a. Qed.

Lemma brace_u_app a b :
  brace_u (a +:+ b)
  = brace_u a || (ends_brace a && starts_u b) || brace_u b.
Proof.
  induction a as [|c a IH]; [done|].
  rewrite append_cons. cbn [brace_u]. rewrite IH, starts_u_app.
  destruct a as [|d a].
  - cbn [brace_u ends_brace starts_u].
    by destruct (Ascii.eqb c open_brace), (starts_u b), (brace_u b).
  - change (ends_brace (String c (String d a)))
      with (ends_brace (String d a)).
    by destruct (Ascii.eqb c open_brace), (starts_u (String d a)),
         (brace_u (String d a)), (ends_brace (String d a)), (starts_u b),
         (brace_u b).
Qed.

Lemma safe_app a b : safe a → safe b → safe (a +:+ b).
Proof.
  intros [Hau Hae] [Hbu Hbe]. split.
  - by rewrite brace_u_app, Hau, Hae, Hbu.
  - rewrite ends_brace_app. by destruct b.
Qed.

Lemma no_brace_safe s : no_brace s = true → safe s.
Proof.
  induction s as [|c s IH]; [done|]. simpl.
  intros [Hc Hs]%andb_true_iff. destruct (IH Hs) as [Hu He].
  apply negb_true_iff in Hc. split; simpl.
  - by rewrite Hc, Hu.
  - destruct s; [done|]. done.
Qed.

Lemma no_brace_pretty_N_go (x : N) s :
  no_brace s = true → no_brace (pretty_N_go x s) = true.
Proof.
  revert s. induction (N.lt_wf_0 x) as [x _ IH]; intros s Hs.
  destruct (decide (x = 0)%N) as [->|Hx].
  - by rewrite pretty_N_go_0.
  - rewrite pretty_N_go_step by lia. apply IH; [apply N.div_lt; lia|].
    simpl. rewrite Hs. unfold pretty_N_char. by repeat case_match.
Qed.

Lemma no_brace_pretty_Z (year : Z) : no_brace (pretty year) = true.
Proof.
  destruct year as [|p|p]; [done| |].
  - unfold pretty, pretty_Z, pretty, pretty_positive, pretty, pretty_N.
    case_decide; [done|]. by apply no_brace_pretty_N_go.
  - change (pretty (Z.neg p)) with ("-" +:+ pretty (N.pos p)).
    rewrite append_cons. simpl.
    unfold pretty, pretty_N. case_decide; [done|].
    by apply no_brace_pretty_N_go.
Qed.

Lemma safe_literal s : brace_u s || ends_brace s = false → safe s.
Proof. by intros [??]%orb_false_iff. Qed.

Lemma safe_build_year_query (year : Z) : safe (_build_year_query year).
Proof.
  pose proof (no_brace_safe _ (no_brace_pretty_Z year)) as Hyear.
  unfold _build_year_query, year_alias.
  repeat lazymatch goal with
  | |- safe (pretty _) => exact Hyear
  | |- safe (_ +:+ _) => apply safe_app
  | |- safe _ => apply safe_literal; vm_compute; reflexivity
  end.
Qed.

Lemma safe_str_join (sep : string) (lines : list string) :
  safe sep → Forall safe lines → safe (str_join sep lines).
Proof.
  intros Hsep Hlines. induction Hlines as [|l ls Hl Hls IH]; [done|].
  destruct ls as [|l' ls]; [done|].
  change (str_join sep (l :: l' :: ls))
    with (l +:+ sep +:+ str_join sep (l' :: ls)).
  by repeat apply safe_app.
Qed.

Lemma safe_contributions_queries (created_year current_year : Z) :
  safe (str_join nl (contributions_queries created_year current_year)
        +:+ query_tail).
Proof.
  apply safe_app; [|by apply safe_literal].
  apply safe_str_join; [by apply safe_literal|].
  unfold contributions_queries. apply Forall_app. split.
  - apply Forall_singleton. by apply safe_literal.
  - apply Forall_fmap, Forall_forall. intros y _. apply safe_build_year_query.
Qed.

Lemma prefix_placeholder c s :
  String.prefix placeholder (String c s) = true →
  Ascii.eqb c open_brace && starts_u s = true.
Proof.
  unfold placeholder. cbn [String.prefix].
  destruct (Ascii.ascii_dec "{"%char c) as [<-|]; [|done].
  destruct s as [|d s]; [done|]. cbn [String.prefix].
  destruct (Ascii.ascii_dec "u"%char d) as [<-|]; [|done]. done.
Qed.

(** A text without an opening brace followed by u has no placeholder, and
    [replace] leaves it as it is. *)
Lemma replace_go_untouched (new s : string) :
  brace_u s = false → replace_go placeholder new 0 s = s.
Proof.
  induction s as [|c s IH]; [done|]. intros Hs.
  cbn [brace_u] in Hs. apply orb_false_iff in Hs as [Hc Hs].
  cbn [replace_go].
  destruct (String.prefix placeholder (String c s)) eqn:Hpre.
  - apply prefix_placeholder in Hpre. congruence.
  - by rewrite IH.
Qed.

Lemma replace_query_head (new rest : string) :
  str_replace placeholder new (query_head +:+ rest)
  = login_open +:+ new +:+ login_close +:+ replace_go placeholder new 0 rest.
Proof. reflexivity. Qed.

(** X17: the query sent by the fetch is the built query with the username
    in the place of the placeholder, once, between the quotes of the
    [login] argument; the blocks and the closing braces are sent as built,
    whatever the username is. *)
Theorem formatted_query_username (username : string)
    (created_year current_year : Z) :
  str_replace "{username}" username
    (_build_contributions_query created_year current_year)
  = login_open +:+ username +:+ login_close
    +:+ str_join nl (contributions_queries created_year current_year)
    +:+ query_tail.
Proof.
  unfold _build_contributions_query.
  change "{username}" with placeholder.
  rewrite replace_query_head. do 3 f_equal.
  apply replace_go_untouched, safe_contributions_queries.
Qed.

Lemma formatted_query_example :
  str_replace "{username}" "octo{username}cat"
    (_build_contributions_query 2024 2024)
  = login_open +:+ "octo{username}cat" +:+ login_close
    +:+ _build_current_year_query +:+ query_tail.
Proof. vm_compute; reflexivity. Qed.
End username_substitution.
